(** * Records Management demo frontend: the workflow handlers of [app.js]

    A shallow embedding of the part of [demo-frontend/app.js] that moves a
    record through its lifecycle (the status badge, the modals, the toasts)
    and of the record-form validation, together with the transition table of
    the specification, and the properties relating the two. *)

From Stdlib Require Import List Arith NArith String Ascii Bool Lia.
Import ListNotations.

(** ** JavaScript strings

    A JavaScript string is a finite sequence of UTF-16 code units.  The
    literals of [app.js] that matter here are ASCII; [lit] reads one from a
    Rocq string. *)
Module JSString.

Definition code_unit := N.
Definition jsstring := list code_unit.

Definition lit (s : string) : jsstring :=
  map N_of_ascii (list_ascii_of_string s).

Fixpoint jseqb (a b : jsstring) : bool :=
  match a, b with
  | [], [] => true
  | x :: a', y :: b' => N.eqb x y && jseqb a' b'
  | _, _ => false
  end.

(** JavaScript truthiness of a string: every string but the empty one. *)
Definition truthy (s : jsstring) : bool :=
  match s with [] => false | _ :: _ => true end.

(** ASCII whitespace of the DOM standard (TAB, LF, FF, CR, SPACE): the
    separators of the class attribute. *)
Definition is_ascii_whitespace (c : code_unit) : bool :=
  existsb (N.eqb c) [9; 10; 12; 13; 32]%N.

(** WhiteSpace and LineTerminator of ECMAScript: what
    [String.prototype.trim] strips. *)
Definition is_js_whitespace (c : code_unit) : bool :=
  existsb (N.eqb c)
    [9; 10; 11; 12; 13; 32; 160; 5760; 8232; 8233; 8239; 8287; 12288; 65279]%N
  || (N.leb 8192 c && N.leb c 8202).

Fixpoint trimStart (s : jsstring) : jsstring :=
  match s with
  | [] => []
  | c :: s' => if is_js_whitespace c then trimStart s' else s
  end.

Definition trimEnd (s : jsstring) : jsstring := rev (trimStart (rev s)).

(** [s.trim()] *)
Definition trim (s : jsstring) : jsstring := trimEnd (trimStart s).

(** A string is blank when it is empty or made of whitespace only. *)
Definition blank (s : jsstring) : bool := forallb is_js_whitespace s.

Fixpoint join (sep : jsstring) (parts : list jsstring) : jsstring :=
  match parts with
  | [] => []
  | [p] => p
  | p :: rest => p ++ sep ++ join sep rest
  end.

End JSString.
Import JSString.

(** ** The class attribute as a DOMTokenList

    [el.className] is the attribute string; [el.classList] is the ordered
    set of its whitespace-separated tokens, and every update through
    [classList] writes the serialised set back into the attribute. *)
Module TokenList.

(** Split on ASCII whitespace; [cur] is the token being read, reversed. *)
Fixpoint split_ws_from (cur : jsstring) (s : jsstring) : list jsstring :=
  match s with
  | [] => match cur with [] => [] | _ => [rev cur] end
  | c :: s' =>
      if is_ascii_whitespace c
      then match cur with
           | [] => split_ws_from [] s'
           | _ => rev cur :: split_ws_from [] s'
           end
      else split_ws_from (c :: cur) s'
  end.

Definition split_ws (s : jsstring) : list jsstring := split_ws_from [] s.

Definition contains (ts : list jsstring) (t : jsstring) : bool :=
  existsb (jseqb t) ts.

(** Append to an ordered set: a token already present stays where it is. *)
Definition oset_append (ts : list jsstring) (t : jsstring) : list jsstring :=
  if contains ts t then ts else ts ++ [t].

(** The ordered-set parser of the DOM standard. *)
Definition parse (s : jsstring) : list jsstring :=
  fold_left oset_append (split_ws s) [].

(** The ordered-set serialiser: tokens joined by U+0020. *)
Definition serialize (ts : list jsstring) : jsstring := join [32%N] ts.

Inductive DOMException := SyntaxError | InvalidCharacterError.

(** The validation every [add]/[remove] argument goes through. *)
Definition validate (t : jsstring) : option DOMException :=
  match t with
  | [] => Some SyntaxError
  | _ => if existsb is_ascii_whitespace t then Some InvalidCharacterError
         else None
  end.

Definition valid_token (t : jsstring) : bool :=
  match validate t with None => true | Some _ => false end.

Definition remove_token (ts : list jsstring) (t : jsstring) : list jsstring :=
  filter (fun u => negb (jseqb t u)) ts.

(** A well-formed token set: valid tokens, none twice. *)
Definition wf_tokens (ts : list jsstring) : Prop :=
  Forall (fun t => valid_token t = true) ts /\ NoDup ts.

End TokenList.
Import TokenList.

(** ** The document

    The pages are flat enough for a list of elements in document order;
    an element carries the attributes and properties [app.js] reads or
    writes, and its child nodes (the toasts of the toast container, the
    entries of the activity log). *)
Module DOM.

Record Child := mkChild {
  child_className : jsstring;
  child_testid : jsstring;
  child_innerHTML : jsstring
}.

Record Element := mkElement {
  id : jsstring;
  testid : jsstring;          (* the data-testid attribute *)
  className : jsstring;
  textContent : jsstring;
  value : jsstring;           (* of an input or textarea *)
  children : list Child
}.

Definition Document := list Element.

Definition classList (e : Element) : list jsstring := parse (className e).

Definition hasClass (c : jsstring) (e : Element) : bool :=
  contains (classList e) c.

(** [el.className = s] *)
Definition set_className (s : jsstring) (e : Element) : Element :=
  mkElement (id e) (testid e) s (textContent e) (value e) (children e).

(** [el.textContent = s]: the children are replaced by one text node. *)
Definition set_textContent (s : jsstring) (e : Element) : Element :=
  mkElement (id e) (testid e) (className e) s (value e) [].

(** [el.appendChild(c)] *)
Definition appendChild (c : Child) (e : Element) : Element :=
  mkElement (id e) (testid e) (className e) (textContent e) (value e)
            (children e ++ [c]).

(** [el.classList.add(t)] *)
Definition classList_add (t : jsstring) (e : Element)
  : DOMException + Element :=
  match validate t with
  | Some ex => inl ex
  | None => inr (set_className (serialize (oset_append (classList e) t)) e)
  end.

(** [el.classList.remove(t)] *)
Definition classList_remove (t : jsstring) (e : Element)
  : DOMException + Element :=
  match validate t with
  | Some ex => inl ex
  | None => inr (set_className (serialize (remove_token (classList e) t)) e)
  end.

(** [document.getElementById(i)]: the first element with that id. *)
Definition getElementById (i : jsstring) (d : Document) : option Element :=
  find (fun e => jseqb (id e) i) d.

(** [document.querySelector('[data-testid="t"]')] *)
Definition queryByTestId (t : jsstring) (d : Document) : option Element :=
  find (fun e => jseqb (testid e) t) d.

(** The element found by [getElementById i] is an object of the document:
    a mutation of it shows at its place. *)
Fixpoint storeById (i : jsstring) (e' : Element) (d : Document) : Document :=
  match d with
  | [] => []
  | e :: rest =>
      if jseqb (id e) i then e' :: rest else e :: storeById i e' rest
  end.

(** [document.querySelectorAll(sel).forEach(f)]: [f] runs on the matching
    elements in document order; when it throws, the elements already
    visited keep their mutation. *)
Fixpoint forEach (sel : Element -> bool) (f : Element -> DOMException + Element)
         (d : Document) : (DOMException * Document) + Document :=
  match d with
  | [] => inr []
  | e :: rest =>
      if sel e then
        match f e with
        | inl ex => inl (ex, e :: rest)
        | inr e' =>
            match forEach sel f rest with
            | inl (ex, rest') => inl (ex, e' :: rest')
            | inr rest' => inr (e' :: rest')
            end
        end
      else
        match forEach sel f rest with
        | inl (ex, rest') => inl (ex, e :: rest')
        | inr rest' => inr (e :: rest')
        end
  end.

End DOM.
Import DOM.

(** ** The handlers of [app.js] *)
Module App.

(** What a [setTimeout] callback of these handlers does when it fires. *)
Inductive Callback :=
| RemoveToast (toast : Child)            (* () => toast.remove() *)
| SetLocation (href : jsstring).         (* window.location.href = href *)

Record Timer := mkTimer { delay : N; callback : Callback }.

(** The state a handler runs in: the document and the timers it has set. *)
Record Page := mkPage {
  document : Document;
  timers : list Timer
}.

Definition with_document (p : Page) (d : Document) : Page :=
  mkPage d (timers p).

Definition setTimeout (cb : Callback) (ms : N) (p : Page) : Page :=
  mkPage (document p) (timers p ++ [mkTimer ms cb]).

(** How a handler ends: it returns, or a DOM call throws; either way the
    mutations made so far stay. *)
Inductive Completion :=
| Normal (p : Page)
| Throw (ex : DOMException) (p : Page).

Definition andThen (c : Completion) (k : Page -> Completion) : Completion :=
  match c with
  | Normal p => k p
  | Throw ex p => Throw ex p
  end.

Notation "c ;; k" := (andThen c k) (at level 61, left associativity).

Definition page_of (c : Completion) : Page :=
  match c with Normal p => p | Throw _ p => p end.

(** [function closeAllModals()] *)
Definition closeAllModals (p : Page) : Completion :=
  match forEach (hasClass (lit "modal-overlay"))
                (classList_remove (lit "visible")) (document p) with
  | inr d => Normal (with_document p d)
  | inl (ex, d) => Throw ex (with_document p d)
  end.

(** [icons[type]] or else the bullet U+25CF, over the own keys of [icons]
    (the handlers pass 'success' only; keys that an object literal
    inherits are not modelled). *)
Definition icon (type : jsstring) : jsstring :=
  if jseqb type (lit "success") then [10003%N]        (* U+2713 *)
  else if jseqb type (lit "error") then [10005%N]     (* U+2715 *)
  else if jseqb type (lit "warning") then [9888%N]    (* U+26A0 *)
  else [9679%N].                                      (* U+25CF *)

Definition nl : jsstring := [10%N].
Definition dq : jsstring := [34%N].

(** The [div] that [showToast] builds. *)
Definition toast (type message : jsstring) : Child :=
  mkChild
    (lit "toast toast-" ++ type)
    (lit "toast-" ++ type)
    (nl ++ lit "    <span>" ++ icon type ++ lit "</span>" ++
     nl ++ lit "    <span>" ++ message ++ lit "</span>" ++
     nl ++ lit "    <button class=" ++ dq ++ lit "toast-dismiss" ++ dq ++
     lit " onclick=" ++ dq ++ lit "this.parentElement.remove()" ++ dq ++
     lit ">" ++ [215%N] ++ lit "</button>" ++
     nl ++ lit "  ").

(** [function showToast(type, message)] *)
Definition showToast (type message : jsstring) (p : Page) : Page :=
  match getElementById (lit "toast-container") (document p) with
  | None => p
  | Some container =>
      let t := toast type message in
      let d := storeById (lit "toast-container") (appendChild t container)
                         (document p) in
      setTimeout (RemoveToast t) 4000 (with_document p d)
  end.

(** [function updateStatusBadge(text, className)] *)
Definition updateStatusBadge (text cls : jsstring) (p : Page) : Completion :=
  match getElementById (lit "status-badge") (document p) with
  | None => Normal p
  | Some badge =>
      let store b := with_document p
                       (storeById (lit "status-badge") b (document p)) in
      let badge1 := set_className (lit "badge") badge in
      match classList_add cls badge1 with
      | inl ex => Throw ex (store badge1)
      | inr badge2 => Normal (store (set_textContent text badge2))
      end
  end.

(** The six workflow handlers. *)
Definition submitForReview (p : Page) : Completion :=
  closeAllModals p ;;
  updateStatusBadge (lit "Pending Review") (lit "badge--pending") ;;
  fun p => Normal (showToast (lit "success") (lit "Record submitted for review") p).

Definition approveRecord (p : Page) : Completion :=
  closeAllModals p ;;
  updateStatusBadge (lit "Approved") (lit "badge--approved") ;;
  fun p => Normal (showToast (lit "success") (lit "Record approved") p).

Definition rejectRecord (p : Page) : Completion :=
  closeAllModals p ;;
  updateStatusBadge (lit "Rejected") (lit "badge--rejected") ;;
  fun p => Normal (showToast (lit "success") (lit "Record rejected") p).

Definition lockRecord (p : Page) : Completion :=
  closeAllModals p ;;
  updateStatusBadge (lit "Locked") (lit "badge--locked") ;;
  fun p => Normal (showToast (lit "success") (lit "Record locked") p).

Definition unlockRecord (p : Page) : Completion :=
  closeAllModals p ;;
  updateStatusBadge (lit "Approved") (lit "badge--approved") ;;
  fun p => Normal (showToast (lit "success") (lit "Record unlocked") p).

Definition archiveRecord (p : Page) : Completion :=
  closeAllModals p ;;
  updateStatusBadge (lit "Archived") (lit "badge--archived") ;;
  fun p => Normal (showToast (lit "success") (lit "Record archived") p).

(** The submit event, as far as the handler touches it. *)
Record Event := mkEvent { defaultPrevented : bool }.

Definition preventDefault (e : Event) : Event := mkEvent true.

(** Apply [f] to the element with id [i] when there is one
    ([if (el) el.f(...)]). *)
Definition whenPresent (i : jsstring) (f : Element -> DOMException + Element)
           (p : Page) : Completion :=
  match getElementById i (document p) with
  | None => Normal p
  | Some el =>
      match f el with
      | inl ex => Throw ex p
      | inr el' => Normal (with_document p (storeById i el' (document p)))
      end
  end.

(** [!title || !title.value.trim()] *)
Definition titleMissing (p : Page) : bool :=
  match getElementById (lit "input-record-title") (document p) with
  | None => true
  | Some title => negb (truthy (trim (value title)))
  end.

(** [function validateRecordForm(e)].  [title] and [errorSummary] are
    fetched once and used after other mutations; no step changes an id or
    the order of the elements, so fetching again by id yields the same
    objects. *)
Definition validateRecordForm (e : Event) (p : Page) : Event * Completion :=
  (preventDefault e,
   (match forEach (hasClass (lit "form-error"))
                  (classList_remove (lit "visible")) (document p) with
    | inr d => Normal (with_document p d)
    | inl (ex, d) => Throw ex (with_document p d)
    end) ;;
   whenPresent (lit "form-error-summary") (classList_remove (lit "visible")) ;;
   fun p1 =>
     if titleMissing p1 then
       whenPresent (lit "field-error-title") (classList_add (lit "visible")) p1 ;;
       whenPresent (lit "form-error-summary")
         (fun s =>
            match classList_add (lit "visible") s with
            | inl ex => inl ex
            | inr s' =>
                inr (set_textContent
                       (lit "Please fix the highlighted errors before submitting.")
                       s')
            end)
     else
       Normal (setTimeout (SetLocation (lit "record-detail.html")) 1200
                 (showToast (lit "success") (lit "Record created successfully!") p1))).

End App.
Import App.

(** ** The lifecycle vocabulary

    The statuses, roles and transitions of the specification, and how each
    shows on the record detail page (the tables of the keywords and
    navigation guides). *)
Module Lifecycle.

Inductive Status := Draft | PendingReview | Approved | Rejected | Locked | Archived.
Inductive Role := Viewer | Editor | Reviewer | Admin.
Inductive Transition := SubmitForReview | Approve | Reject | Lock | Unlock | Archive.
Inductive WorkflowError := NotFound | InvalidTransition | Forbidden | MissingRequiredInput.

Definition all_statuses : list Status :=
  [Draft; PendingReview; Approved; Rejected; Locked; Archived].
Definition all_transitions : list Transition :=
  [SubmitForReview; Approve; Reject; Lock; Unlock; Archive].

Definition status_eqb (a b : Status) : bool :=
  match a, b with
  | Draft, Draft | PendingReview, PendingReview | Approved, Approved
  | Rejected, Rejected | Locked, Locked | Archived, Archived => true
  | _, _ => false
  end.

Definition role_eqb (a b : Role) : bool :=
  match a, b with
  | Viewer, Viewer | Editor, Editor | Reviewer, Reviewer | Admin, Admin => true
  | _, _ => false
  end.

(** The transition table of section 4.1 of the specification. *)
Definition from_set (t : Transition) : list Status :=
  match t with
  | SubmitForReview => [Draft]
  | Approve => [PendingReview]
  | Reject => [PendingReview]
  | Lock => [Approved]
  | Unlock => [Locked]
  | Archive => [Approved; Rejected; Locked]
  end.

Definition to_status (t : Transition) : Status :=
  match t with
  | SubmitForReview => PendingReview
  | Approve => Approved
  | Reject => Rejected
  | Lock => Locked
  | Unlock => Approved
  | Archive => Archived
  end.

Definition role_set (t : Transition) : list Role :=
  match t with
  | SubmitForReview => [Editor; Admin]
  | Approve => [Reviewer; Admin]
  | Reject => [Reviewer; Admin]
  | Lock => [Admin]
  | Unlock => [Admin]
  | Archive => [Editor; Admin]
  end.

Definition requires_input (t : Transition) : bool :=
  match t with
  | Reject | Unlock => true
  | _ => false
  end.

(** One edge of the table, and the walks made of such edges. *)
Definition table_step (s : Status) (t : Transition) (s' : Status) : Prop :=
  In s (from_set t) /\ s' = to_status t.

Inductive table_reachable (s : Status) : Status -> Prop :=
| reach_here : table_reachable s s
| reach_step : forall s1 t s2,
    table_reachable s s1 -> table_step s1 t s2 -> table_reachable s s2.

Definition role_allowed (t : Transition) (r : option Role) : bool :=
  match r with
  | Some r => existsb (role_eqb r) (role_set t)
  | None => false
  end.

(** No auxiliary input: none supplied, or only whitespace. *)
Definition no_input (input : option jsstring) : bool :=
  match input with
  | None => true
  | Some i => blank i
  end.

(** The guard chain of section 4.1, in its fixed order.  [st] is [None]
    when the record does not exist, [r] when the actor has none of the
    four roles, [input] when nothing was supplied. *)
Definition guard (t : Transition) (st : option Status) (r : option Role)
           (input : option jsstring) : option WorkflowError :=
  match st with
  | None => Some NotFound
  | Some s =>
      if negb (existsb (status_eqb s) (from_set t)) then Some InvalidTransition
      else if negb (role_allowed t r) then Some Forbidden
      else if requires_input t && no_input input then Some MissingRequiredInput
      else None
  end.

(** Status text and modifier class of the badge (keywords guide, "Status
    Badge"). *)
Definition status_text (s : Status) : jsstring :=
  match s with
  | Draft => lit "Draft"
  | PendingReview => lit "Pending Review"
  | Approved => lit "Approved"
  | Rejected => lit "Rejected"
  | Locked => lit "Locked"
  | Archived => lit "Archived"
  end.

Definition status_class (s : Status) : jsstring :=
  match s with
  | Draft => lit "badge--draft"
  | PendingReview => lit "badge--pending"
  | Approved => lit "badge--approved"
  | Rejected => lit "badge--rejected"
  | Locked => lit "badge--locked"
  | Archived => lit "badge--archived"
  end.

Definition status_of_text (s : jsstring) : option Status :=
  find (fun st => jseqb s (status_text st)) all_statuses.

Definition is_status_modifier (c : jsstring) : bool :=
  existsb (fun st => jseqb c (status_class st)) all_statuses.

Definition role_of_text (s : jsstring) : option Role :=
  find (fun r => jseqb s (match r with
                          | Viewer => lit "Viewer"
                          | Editor => lit "Editor"
                          | Reviewer => lit "Reviewer"
                          | Admin => lit "Admin"
                          end))
       [Viewer; Editor; Reviewer; Admin].

(** The handler behind each transition, and the toast it shows. *)
Definition handler (t : Transition) : Page -> Completion :=
  match t with
  | SubmitForReview => submitForReview
  | Approve => approveRecord
  | Reject => rejectRecord
  | Lock => lockRecord
  | Unlock => unlockRecord
  | Archive => archiveRecord
  end.

Definition success_message (t : Transition) : jsstring :=
  match t with
  | SubmitForReview => lit "Record submitted for review"
  | Approve => lit "Record approved"
  | Reject => lit "Record rejected"
  | Lock => lit "Record locked"
  | Unlock => lit "Record unlocked"
  | Archive => lit "Record archived"
  end.

(** The textarea of the transition's modal (keywords guide,
    "Named Modals"). *)
Definition input_testid (t : Transition) : option jsstring :=
  match t with
  | SubmitForReview => Some (lit "input-workflow-comment")
  | Approve => Some (lit "input-approval-note")
  | Reject => Some (lit "input-rejection-reason")
  | Unlock => Some (lit "input-unlock-reason")
  | Lock | Archive => None
  end.

(** What the page shows of a record and of a request. *)
Definition badge (p : Page) : option Element :=
  getElementById (lit "status-badge") (document p).

Definition page_status (p : Page) : option Status :=
  match badge p with
  | Some b => status_of_text (textContent b)
  | None => None
  end.

Definition page_role (p : Page) : option Role :=
  match queryByTestId (lit "user-role-badge") (document p) with
  | Some e => role_of_text (textContent e)
  | None => None
  end.

Definition page_input (t : Transition) (p : Page) : option jsstring :=
  match input_testid t with
  | Some i => option_map value (queryByTestId i (document p))
  | None => None
  end.

Definition toasts (p : Page) : option (list Child) :=
  option_map children (getElementById (lit "toast-container") (document p)).

(** The entries of the activity log, the page's audit trail. *)
Definition activity_log (p : Page) : list Child :=
  match queryByTestId (lit "activity-log") (document p) with
  | Some e => children e
  | None => []
  end.

(** The activity log is an element of its own: neither the status badge
    nor the toast container. *)
Definition log_detached (p : Page) : bool :=
  match queryByTestId (lit "activity-log") (document p) with
  | Some e => negb (jseqb (id e) (lit "status-badge"))
              && negb (jseqb (id e) (lit "toast-container"))
  | None => true
  end.

(** The guard chain of the specification, read off the page a handler
    runs on: the record exists when its badge does. *)
Definition page_guard (t : Transition) (p : Page) : option WorkflowError :=
  match badge p with
  | None => Some NotFound
  | Some b =>
      match status_of_text (textContent b) with
      | None => Some InvalidTransition
      | Some s => guard t (Some s) (page_role p) (page_input t p)
      end
  end.

Fixpoint run (ts : list Transition) (p : Page) : Completion :=
  match ts with
  | [] => Normal p
  | t :: ts' => handler t p ;; run ts'
  end.

End Lifecycle.
Import Lifecycle.

(** ** The engine facade of the specification *)
Module Engine.

Record Record_ := mkRecord { record_id : N; status : Status }.
Record Actor := mkActor { role : Role }.

(** Modelled from the spec: [canInvoke(role, transitionName)] of section
    4.2, which [app.js] does not have; the role column of the table. *)
Definition canInvoke (r : Role) (t : Transition) : bool :=
  existsb (role_eqb r) (role_set t).

(** Modelled from the spec: [availableTransitions(record, actor)] of
    section 4.4, which [app.js] does not have: the transitions whose From
    set has the record's status and whose roles have the actor's. *)
Definition availableTransitions (r : Record_) (a : Actor) : list Transition :=
  filter (fun t => existsb (status_eqb (status r)) (from_set t)
                   && canInvoke (role a) t)
         all_transitions.

End Engine.
Import Engine.

(** ** The net effect of the handlers

    Closed forms of what the handlers do to an element; the properties
    below show that the handlers compute them. *)
Module Effects.

(** [el.classList.remove(t)] for a valid token [t]. *)
Definition strip (t : jsstring) (e : Element) : Element :=
  set_className (serialize (remove_token (classList e) t)) e.

(** [el.classList.add(t)] for a valid token [t]. *)
Definition mark (t : jsstring) (e : Element) : Element :=
  set_className (serialize (oset_append (classList e) t)) e.

(** [querySelectorAll('.' + cls).forEach(el => el.classList.remove('visible'))]
    seen from one element. *)
Definition unveil (cls : jsstring) (e : Element) : Element :=
  if hasClass cls e then strip (lit "visible") e else e.

(** The badge after [updateStatusBadge(text, cls)]. *)
Definition restyle (text cls : jsstring) (b : Element) : Element :=
  set_textContent text (mark cls (set_className (lit "badge") b)).

Definition sb : jsstring := lit "status-badge".
Definition tc : jsstring := lit "toast-container".

(** The page after [closeAllModals()] ... *)
Definition closed (p : Page) : Page :=
  with_document p (map (unveil (lit "modal-overlay")) (document p)).

(** ... after [updateStatusBadge(text, cls)] ... *)
Definition badged (text cls : jsstring) (p : Page) : Page :=
  match getElementById sb (document p) with
  | None => p
  | Some b => with_document p (storeById sb (restyle text cls b) (document p))
  end.

(** ... and after the handler of transition [t]. *)
Definition after (t : Transition) (p : Page) : Page :=
  showToast (lit "success") (success_message t)
    (badged (status_text (to_status t)) (status_class (to_status t))
            (closed p)).

(** [if (el) g(el)] on the element with id [i], for a [g] that cannot
    throw. *)
Definition amend (i : jsstring) (g : Element -> Element) (p : Page) : Page :=
  match getElementById i (document p) with
  | None => p
  | Some el => with_document p (storeById i (g el) (document p))
  end.

Definition fes : jsstring := lit "form-error-summary".
Definition fet : jsstring := lit "field-error-title".
Definition summary_text : jsstring :=
  lit "Please fix the highlighted errors before submitting.".

(** The form page after the "Reset errors" part of [validateRecordForm]. *)
Definition reset (p : Page) : Page :=
  amend fes (strip (lit "visible"))
        (with_document p (map (unveil (lit "form-error")) (document p))).

(** The form page when validation fails ... *)
Definition refused (p : Page) : Page :=
  amend fes (fun s => set_textContent summary_text (mark (lit "visible") s))
        (amend fet (mark (lit "visible")) (reset p)).

(** ... and when it passes. *)
Definition accepted (p : Page) : Page :=
  setTimeout (SetLocation (lit "record-detail.html")) 1200
    (showToast (lit "success") (lit "Record created successfully!") (reset p)).

(** No error message of the form is shown. *)
Definition error_hidden (el : Element) : Prop :=
  hasClass (lit "form-error") el = true -> hasClass (lit "visible") el = false.

(** The only error messages shown are the title's and the summary. *)
Definition only_title_error (el : Element) : Prop :=
  hasClass (lit "form-error") el = true -> hasClass (lit "visible") el = true ->
  id el = fet \/ id el = fes.

(** What a handler run on page [p] may have changed of an element [e]
    found by its test id, [e'] being the element found afterwards: the
    text only if [e] is the status badge, the children only if it is the
    badge or the toast container; never the id or the value. *)
Definition kept (p : Page) (e e' : Element) : Prop :=
  id e' = id e /\ value e' = value e /\
  (textContent e' = textContent e
   \/ exists b, getElementById sb (document p) = Some b
                /\ textContent b = textContent e /\ id e = sb) /\
  (children e' = children e \/ id e = sb \/ id e = tc).

End Effects.
Import Effects.

(** ** A record detail page

    The elements of [record-detail.html] that the handlers and the
    observations above look at, for a record in status [s] seen by a user
    of role [r], with the given texts typed in the two required inputs and
    the given activity log. *)
Module Samples.

Definition role_text (r : Role) : jsstring :=
  match r with
  | Viewer => lit "Viewer"
  | Editor => lit "Editor"
  | Reviewer => lit "Reviewer"
  | Admin => lit "Admin"
  end.

Definition log_entry (text : jsstring) : Child :=
  mkChild (lit "log-entry") [] text.

Definition detail_page (s : Status) (r : Role) (reason justification : jsstring)
           (log : list Child) : Page :=
  mkPage
    [ mkElement [] (lit "user-role-badge")
                (lit "badge badge--approved") (role_text r) [] [];
      mkElement (lit "status-badge") (lit "status-badge")
                (lit "badge " ++ status_class s) (status_text s) [] [];
      mkElement [] (lit "activity-log") (lit "activity-log") [] [] log;
      mkElement (lit "modal-submit-review") (lit "modal-confirm")
                (lit "modal-overlay") [] [] [];
      mkElement (lit "modal-approve") (lit "modal-approve")
                (lit "modal-overlay visible") [] [] [];
      mkElement (lit "input-rejection-reason") (lit "input-rejection-reason")
                [] [] reason [];
      mkElement (lit "input-unlock-reason") (lit "input-unlock-reason")
                [] [] justification [];
      mkElement (lit "toast-container") [] (lit "toast-container") [] [] [] ]
    [].

(** The elements of [record-form.html] that [validateRecordForm] looks
    at, with the given title typed in and the given record type chosen. *)
Definition form_page (title type : jsstring) : Page :=
  mkPage
    [ mkElement (lit "form-error-summary") (lit "form-error-summary")
                (lit "form-error-summary") [] [] [];
      mkElement (lit "input-record-title") (lit "input-record-title")
                (lit "form-input") [] title [];
      mkElement (lit "field-error-title") (lit "field-error-title")
                (lit "form-error") (lit "Title is required.") [] [];
      mkElement (lit "select-record-type") (lit "select-record-type")
                (lit "form-select") [] type [];
      mkElement (lit "field-error-type") (lit "field-error-type")
                (lit "form-error visible") (lit "Type is required.") [] [];
      mkElement (lit "toast-container") [] (lit "toast-container") [] [] [] ]
    [].

(** Pages of the scenarios below. *)
Definition draft_page : Page := detail_page Draft Admin [] [] [].
Definition pending_viewer_page : Page := detail_page PendingReview Viewer [] [] [].
Definition pending_blank_reason_page : Page :=
  detail_page PendingReview Admin (lit "   ") [] [].
Definition pending_reason_page : Page :=
  detail_page PendingReview Reviewer (lit "incomplete figures") [] [].
Definition locked_page : Page := detail_page Locked Admin [] [] [].
Definition archived_page : Page :=
  detail_page Archived Admin [] (lit "restore") [].
Definition approved_page : Page :=
  detail_page Approved Admin [] (lit "audit correction") [].
Definition approved_logged_page : Page :=
  detail_page Approved Admin [] (lit "audit correction")
              [log_entry (lit "Record approved by reviewer")].

End Samples.
Import Samples.

(** ** The other controls of [app.js]

    The sidebar, the menus, the modals, the notifications, the filter
    panel and the navigation highlighting. *)
Module Controls.

(** [el.classList.toggle(t)] *)
Definition classList_toggle (t : jsstring) (e : Element)
  : DOMException + Element :=
  match validate t with
  | Some ex => inl ex
  | None =>
      if contains (classList e) t
      then inr (set_className (serialize (remove_token (classList e) t)) e)
      else inr (set_className (serialize (oset_append (classList e) t)) e)
  end.

(** [el.innerHTML = '']: no child node is left, text included. *)
Definition clear_innerHTML (e : Element) : Element :=
  mkElement (id e) (testid e) (className e) [] (value e) [].

(** The element found by [document.querySelector] is an object of the
    document: a mutation of it shows at the place of the first match. *)
Fixpoint storeFirst (q : Element -> bool) (e' : Element) (d : Document)
  : Document :=
  match d with
  | [] => []
  | e :: rest => if q e then e' :: rest else e :: storeFirst q e' rest
  end.

(** The same for an element known by its place in the document (an
    event target). *)
Fixpoint storeAt (k : nat) (e' : Element) (d : Document) : Document :=
  match d, k with
  | [], _ => []
  | _ :: rest, O => e' :: rest
  | e :: rest, S k' => e :: storeAt k' e' rest
  end.

(** [const el = document.querySelector(sel); if (el) el.f(...)] *)
Definition whenFound (q : Element -> bool)
           (f : Element -> DOMException + Element) (p : Page) : Completion :=
  match find q (document p) with
  | None => Normal p
  | Some el =>
      match f el with
      | inl ex => Throw ex p
      | inr el' => Normal (with_document p (storeFirst q el' (document p)))
      end
  end.

(** [function toggleSidebar()] *)
Definition toggleSidebar (p : Page) : Completion :=
  whenFound (hasClass (lit "sidebar"))
            (classList_toggle (lit "sidebar--collapsed")) p.

(** [function toggleUserMenu()] *)
Definition toggleUserMenu (p : Page) : Completion :=
  whenPresent (lit "user-dropdown") (classList_toggle (lit "visible")) p.

(** [function toggleNotifications()] *)
Definition toggleNotifications (p : Page) : Completion :=
  whenPresent (lit "notifications-panel") (classList_toggle (lit "visible")) p.

(** [function toggleFilters()] *)
Definition toggleFilters (p : Page) : Completion :=
  whenPresent (lit "filter-panel") (classList_toggle (lit "visible")) p.

(** [function toggleActionsMenu()] *)
Definition toggleActionsMenu (p : Page) : Completion :=
  whenPresent (lit "actions-dropdown") (classList_toggle (lit "visible")) p.

(** [function markAllRead()] *)
Definition markAllRead (p : Page) : Completion :=
  (match forEach (fun e => hasClass (lit "notification-item") e
                           && hasClass (lit "unread") e)
                 (classList_remove (lit "unread")) (document p) with
   | inr d => Normal (with_document p d)
   | inl (ex, d) => Throw ex (with_document p d)
   end) ;;
  whenFound (hasClass (lit "notification-badge"))
            (fun badge => inr (set_textContent (lit "0") badge)).

(** [function openModal(modalId)].  An element without an id has the id
    [[]] here, and [document.getElementById('')] is [null]: the empty id
    finds nothing. *)
Definition openModal (modalId : jsstring) (p : Page) : Completion :=
  match modalId with
  | [] => Normal p
  | _ :: _ => whenPresent modalId (classList_add (lit "visible")) p
  end.

(** [function closeModal(modalId)], with the empty id as in [openModal]. *)
Definition closeModal (modalId : jsstring) (p : Page) : Completion :=
  match modalId with
  | [] => Normal p
  | _ :: _ => whenPresent modalId (classList_remove (lit "visible")) p
  end.

(** The [keydown] listener: [if (e.key === 'Escape') closeAllModals()]. *)
Definition onKeydown (key : jsstring) (p : Page) : Completion :=
  if jseqb key (lit "Escape") then closeAllModals p else Normal p.

(** The first [click] listener, for a click whose target is the element
    at place [target] of the document (a target that is no element of
    the document has no class [modal-overlay]). *)
Definition onClickOverlay (target : nat) (p : Page) : Completion :=
  match nth_error (document p) target with
  | None => Normal p
  | Some el =>
      if hasClass (lit "modal-overlay") el then
        match classList_remove (lit "visible") el with
        | inl ex => Throw ex p
        | inr el' => Normal (with_document p (storeAt target el' (document p)))
        end
      else Normal p
  end.

(** [function applyFilters()] *)
Definition applyFilters (p : Page) : Completion :=
  toggleFilters (showToast (lit "success") (lit "Filters applied successfully") p).

(** [function clearFilters()] *)
Definition clearFilters (p : Page) : Completion :=
  whenPresent (lit "active-filter-tags") (fun tags => inr (clear_innerHTML tags)) p ;;
  fun p => Normal (showToast (lit "success") (lit "Filters cleared") p).

(** [function deleteRecord()] *)
Definition deleteRecord (p : Page) : Completion :=
  closeAllModals p ;;
  fun p => Normal (setTimeout (SetLocation (lit "records.html")) 1200
                     (showToast (lit "success") (lit "Record deleted") p)).

(** [s.split(sep)] for a separator of one code unit; [cur] is the piece
    being read, reversed. *)
Fixpoint split_from (sep : code_unit) (cur s : jsstring) : list jsstring :=
  match s with
  | [] => [rev cur]
  | c :: s' =>
      if N.eqb c sep then rev cur :: split_from sep [] s'
      else split_from sep (c :: cur) s'
  end.

Definition split (sep : code_unit) (s : jsstring) : list jsstring :=
  split_from sep [] s.

(** [a.pop()], as far as its result goes: the last element, [undefined]
    for an empty array. *)
Fixpoint pop (a : list jsstring) : option jsstring :=
  match a with
  | [] => None
  | [x] => Some x
  | _ :: rest => pop rest
  end.

Definition slash : code_unit := 47%N.

(** [window.location.pathname.split('/').pop() || 'dashboard.html'] *)
Definition currentPage (pathname : jsstring) : jsstring :=
  match pop (split slash pathname) with
  | Some s => if truthy s then s else lit "dashboard.html"
  | None => lit "dashboard.html"
  end.




(** The four menus and panels toggled through their id. *)
Inductive Panel := UserMenu | NotificationsPanel | FilterPanel | ActionsMenu.

Definition panel_id (m : Panel) : jsstring :=
  match m with
  | UserMenu => lit "user-dropdown"
  | NotificationsPanel => lit "notifications-panel"
  | FilterPanel => lit "filter-panel"
  | ActionsMenu => lit "actions-dropdown"
  end.

Definition toggle (m : Panel) : Page -> Completion :=
  match m with
  | UserMenu => toggleUserMenu
  | NotificationsPanel => toggleNotifications
  | FilterPanel => toggleFilters
  | ActionsMenu => toggleActionsMenu
  end.

(** Closed forms, as in [Effects]. *)
Definition toggled (t : jsstring) (e : Element) : Element :=
  if hasClass t e then strip t e else mark t e.

Definition revise (q : Element -> bool) (g : Element -> Element) (p : Page)
  : Page :=
  match find q (document p) with
  | None => p
  | Some el => with_document p (storeFirst q (g el) (document p))
  end.

Definition is_unread (e : Element) : bool :=
  hasClass (lit "notification-item") e && hasClass (lit "unread") e.

(** [markAllRead], seen from one element. *)
Definition read (e : Element) : Element :=
  if is_unread e then strip (lit "unread") e else e.

(** No notification is unread. *)
Definition all_read (e : Element) : Prop :=
  hasClass (lit "notification-item") e = true ->
  hasClass (lit "unread") e = false.

(** No modal is open. *)
Definition modal_closed (e : Element) : Prop :=
  hasClass (lit "modal-overlay") e = true -> hasClass (lit "visible") e = false.

(** Two elements carry the same classes. *)
Definition same_classes (e e' : Element) : Prop :=
  forall c, hasClass c e' = hasClass c e.

(** Two elements differ in their class attribute at most. *)
Definition same_but_class (e e' : Element) : Prop :=
  id e' = id e /\ testid e' = testid e /\ textContent e' = textContent e /\
  value e' = value e /\ children e' = children e.

(** A page of the application shell: sidebar, user menu, notifications
    with two unread items, filter panel with two active tags, two modals
    (one open), navigation items and the toast container. *)
Definition shell_page : Page :=
  mkPage
    [ mkElement [] (lit "sidebar-nav") (lit "sidebar") [] [] [];
      mkElement [] (lit "nav-item-dashboard") (lit "nav-item") (lit "Dashboard") [] [];
      mkElement [] (lit "nav-item-records") (lit "nav-item") (lit "Records") [] [];
      mkElement (lit "user-dropdown") [] (lit "user-dropdown") [] [] [];
      mkElement (lit "notifications-panel") (lit "notifications-panel")
                (lit "notifications-panel visible") [] [] [];
      mkElement [] (lit "notification-unread-count") (lit "notification-badge")
                (lit "3") [] [];
      mkElement [] [] (lit "notification-item unread") (lit "Record approved") [] [];
      mkElement [] [] (lit "notification-item") (lit "Record locked") [] [];
      mkElement [] [] (lit "notification-item unread") (lit "Review due") [] [];
      mkElement (lit "filter-panel") (lit "filter-panel") (lit "filter-panel") [] [] [];
      mkElement (lit "filter-status") (lit "filter-status") [] [] (lit "Approved") [];
      mkElement (lit "active-filter-tags") (lit "active-filter-tags") [] [] []
                [mkChild (lit "filter-tag") [] (lit "Status: Approved");
                 mkChild (lit "filter-tag") [] (lit "Type: Policy")];
      mkElement (lit "modal-lock") (lit "modal-lock")
                (lit "modal-overlay visible") [] [] [];
      mkElement (lit "modal-unlock") (lit "modal-unlock")
                (lit "modal-overlay") [] [] [];
      mkElement (lit "toast-container") [] (lit "toast-container") [] [] [] ]
    [].

End Controls.
Import Controls.

(** ** Handlers that set [style.display]

    The login and password-reset forms, the report runner and the record
    search show and hide elements through their inline [style.display].
    No handler of [app.js] adds, removes or reorders an element of the
    document, so an element is known by its place in it. *)
Module Styled.

(** A page together with the inline [display] values set so far, newest
    first, by place. *)
Inductive Deferred :=
| ReportReady (loading results : option nat).

Record View := mkView {
  page : Page;
  displays : list (nat * jsstring);
  deferred : list (N * Deferred)
}.

Definition with_page (v : View) (p : Page) : View :=
  mkView p (displays v) (deferred v).

(** [el.style.display], [None] when no handler has set it. *)
Definition display (v : View) (k : nat) : option jsstring :=
  option_map snd (find (fun kv => Nat.eqb (fst kv) k) (displays v)).

(** [el.style.display = s] *)
Definition set_display (k : nat) (s : jsstring) (v : View) : View :=
  mkView (page v) ((k, s) :: displays v) (deferred v).

(** [if (el) el.style.display = s] *)
Definition set_display_if (k : option nat) (s : jsstring) (v : View) : View :=
  match k with
  | Some k => set_display k s v
  | None => v
  end.

(** The place of the element [getElementById] finds. *)
Fixpoint indexById (i : jsstring) (d : Document) : option nat :=
  match d with
  | [] => None
  | e :: rest =>
      if jseqb (id e) i then Some O else option_map S (indexById i rest)
  end.

Definition display_of (i : jsstring) (v : View) : option jsstring :=
  match indexById i (document (page v)) with
  | Some k => display v k
  | None => None
  end.

(** How these handlers end: they return, or a property of [null] is
    read. *)
Inductive Outcome :=
| Returned (v : View)
| TypeError (v : View).

Definition view_of (o : Outcome) : View :=
  match o with Returned v => v | TypeError v => v end.

Definition child_hasClass (c : jsstring) (ch : Child) : bool :=
  contains (parse (child_className ch)) c.

(** [el.querySelector('.' + c).textContent = text], the children of [el]
    standing for its descendants and [text] having no character that
    markup escapes; [None] when [querySelector] finds nothing. *)
Fixpoint setChildText (c text : jsstring) (cs : list Child)
  : option (list Child) :=
  match cs with
  | [] => None
  | ch :: rest =>
      if child_hasClass c ch
      then Some (mkChild (child_className ch) (child_testid ch) text :: rest)
      else option_map (cons ch) (setChildText c text rest)
  end.

Definition set_children (cs : list Child) (e : Element) : Element :=
  mkElement (id e) (testid e) (className e) (textContent e) (value e) cs.

Definition login_error_text : jsstring :=
  lit "Please enter both username and password.".

(** [function validateLoginForm(e)] *)
Definition validateLoginForm (e : Event) (v : View) : Event * Outcome :=
  let d := document (page v) in
  (preventDefault e,
   match getElementById (lit "input-username") d with
   | None => TypeError v
   | Some username_input =>
       match getElementById (lit "input-password") d with
       | None => TypeError v
       | Some password_input =>
           let username := value username_input in
           let password := value password_input in
           let errorBanner := getElementById (lit "alert-login-error") d in
           let place := indexById (lit "alert-login-error") d in
           if negb (truthy username) || negb (truthy password) then
             match errorBanner with
             | Some banner =>
                 let v1 := set_display_if place (lit "flex") v in
                 match setChildText (lit "alert-text") login_error_text
                                    (children banner) with
                 | None => TypeError v1
                 | Some cs =>
                     Returned
                       (with_page v1
                          (with_document (page v)
                             (storeById (lit "alert-login-error")
                                        (set_children cs banner) d)))
                 end
             | None => Returned v
             end
           else
             let v1 := set_display_if place (lit "none") v in
             Returned
               (with_page v1
                  (setTimeout (SetLocation (lit "dashboard.html")) 1200
                     (showToast (lit "success")
                                (lit "Login successful! Redirecting...")
                                (page v))))
       end
   end).

(** [function submitForgotPassword(e)] *)
Definition submitForgotPassword (e : Event) (v : View) : Event * Outcome :=
  let d := document (page v) in
  (preventDefault e,
   match getElementById (lit "input-reset-email") d with
   | None => TypeError v
   | Some email_input =>
       let email := value email_input in
       let alert := indexById (lit "alert-reset-sent") d in
       if negb (truthy email) then
         Returned (with_page v
                     (showToast (lit "error")
                                (lit "Please enter your email address.")
                                (page v)))
       else
         let v1 := set_display_if alert (lit "flex") v in
         Returned (with_page v1
                     (showToast (lit "success")
                                (lit "Reset link sent to your email!")
                                (page v)))
   end).

(** [function runReport()]: the part that runs at once ... *)
Definition runReport (v : View) : View :=
  let d := document (page v) in
  let loading := indexById (lit "report-loading") d in
  let results := indexById (lit "report-results") d in
  let v1 := set_display_if loading (lit "flex") v in
  let v2 := set_display_if results (lit "none") v1 in
  mkView (page v2) (displays v2)
         (deferred v2 ++ [(1500%N, ReportReady loading results)]).

(** ... and its [setTimeout] callback, when it fires. *)
Definition fire (cb : Deferred) (v : View) : View :=
  match cb with
  | ReportReady loading results =>
      let v1 := set_display_if loading (lit "none") v in
      let v2 := set_display_if results (lit "block") v1 in
      with_page v2 (showToast (lit "success")
                              (lit "Report generated successfully") (page v2))
  end.

(** [s.includes(t)] *)
Fixpoint startsWith (s t : jsstring) : bool :=
  match t, s with
  | [], _ => true
  | _ :: _, [] => false
  | y :: t', x :: s' => N.eqb x y && startsWith s' t'
  end.

Fixpoint includes (s t : jsstring) : bool :=
  startsWith s t
  || match s with
     | [] => false
     | _ :: s' => includes s' t
     end.

Section Search.

(** [String.prototype.toLowerCase], and which elements the selector
    ['tbody tr'] matches: the document here records neither the case
    tables nor tag names. *)
Variable toLowerCase : jsstring -> jsstring.
Variable is_row : Element -> bool.

(** [rows.forEach(row => ...)], from place [k] on. *)
Fixpoint searchRows (term : jsstring) (k : nat) (d : Document)
         (ds : list (nat * jsstring)) (hasResults : bool)
  : list (nat * jsstring) * bool :=
  match d with
  | [] => (ds, hasResults)
  | row :: rest =>
      if is_row row then
        let text := toLowerCase (textContent row) in
        let matched := includes text term in
        searchRows term (S k) rest
                   ((k, if matched then [] else lit "none") :: ds)
                   (if matched then true else hasResults)
      else searchRows term (S k) rest ds hasResults
  end.

(** A table row whose lower-cased text has [term] in it. *)
Definition matches (term : jsstring) (row : Element) : bool :=
  is_row row && includes (toLowerCase (textContent row)) term.

(** [function handleSearch(e)], [input] being [e.target.value]. *)
Definition handleSearch (input : jsstring) (v : View) : View :=
  let d := document (page v) in
  let term := toLowerCase input in
  let '(ds, hasResults) := searchRows term O d (displays v) false in
  let v1 := mkView (page v) ds (deferred v) in
  set_display_if (indexById (lit "empty-state-records") d)
                 (if hasResults then lit "none" else lit "block") v1.

End Search.

(** The login page, with the given user name and password typed in. *)
Definition login_page (username password : jsstring) : View :=
  mkView
    (mkPage
       [ mkElement (lit "alert-login-error") (lit "alert-login-error")
                   (lit "alert alert-error") [] []
                   [mkChild [] [] [9888%N];
                    mkChild (lit "alert-text") []
                            (lit "Invalid username or password.")];
         mkElement (lit "input-username") (lit "input-username")
                   (lit "form-input") [] username [];
         mkElement (lit "input-password") (lit "input-password")
                   (lit "form-input") [] password [];
         mkElement (lit "toast-container") [] (lit "toast-container") [] [] [] ]
       [])
    [(O, lit "none")] [].

(** The forgotten-password page. *)
Definition reset_page (email : jsstring) : View :=
  mkView
    (mkPage
       [ mkElement (lit "input-reset-email") (lit "input-reset-email")
                   (lit "form-input") [] email [];
         mkElement (lit "alert-reset-sent") (lit "alert-reset-sent")
                   (lit "alert alert-success") [] [] [];
         mkElement (lit "toast-container") [] (lit "toast-container") [] [] [] ]
       [])
    [(1, lit "none")] [].

(** The reports page. *)
Definition reports_page : View :=
  mkView
    (mkPage
       [ mkElement (lit "report-loading") (lit "report-loading")
                   (lit "loading-spinner") [] [] [];
         mkElement (lit "report-results") (lit "report-results") [] [] [] [];
         mkElement (lit "toast-container") [] (lit "toast-container") [] [] [] ]
       [])
    [(0, lit "none"); (1, lit "none")] [].

(** The records list: three table rows and the empty state. *)
Definition records_page : View :=
  mkView
    (mkPage
       [ mkElement (lit "search-input") (lit "search-input") [] [] [] [];
         mkElement [] (lit "records-table-row") []
                   (lit "Q4 Financial Review Compliance Approved") [] [];
         mkElement [] (lit "records-table-row") []
                   (lit "Server Migration Plan Infrastructure Draft") [] [];
         mkElement [] (lit "records-table-row") []
                   (lit "Leave Policy HR Document Locked") [] [];
         mkElement (lit "empty-state-records") (lit "empty-state-records")
                   (lit "empty-state") (lit "No records found") [] [] ]
       [])
    [(4, lit "none")] [].

(** The rows of [records_page], and a lower-casing of ASCII letters, for
    the examples. *)
Definition sample_row (e : Element) : bool :=
  jseqb (testid e) (lit "records-table-row").

Definition ascii_lower (s : jsstring) : jsstring :=
  map (fun c => if N.leb 65 c && N.leb c 90 then (c + 32)%N else c) s.

End Styled.
Import Styled.

(** * Properties *)

(** ** Strings *)
Section StringFacts.

Lemma jseqb_eq (a b : jsstring) : jseqb a b = true <-> a = b.
Proof.
  revert b; induction a as [|x a IH]; intros [|y b]; simpl; split;
    try congruence; try reflexivity.
  - intros H. apply andb_true_iff in H as [H1 H2].
    apply N.eqb_eq in H1. apply IH in H2. congruence.
  - intros H. injection H as -> ->.
    apply andb_true_iff; split; [apply N.eqb_refl | now apply IH].
Qed.

Lemma jseqb_refl (a : jsstring) : jseqb a a = true.
Proof. now apply jseqb_eq. Qed.

Lemma jseqb_neq (a b : jsstring) : jseqb a b = false <-> a <> b.
Proof.
  split.
  - intros H E. apply jseqb_eq in E. congruence.
  - intros H. destruct (jseqb a b) eqn:E; [|reflexivity].
    apply jseqb_eq in E. contradiction.
Qed.

Lemma jseqb_sym (a b : jsstring) : jseqb a b = jseqb b a.
Proof.
  destruct (jseqb a b) eqn:E.
  - apply jseqb_eq in E. subst. symmetry. apply jseqb_refl.
  - apply jseqb_neq in E. symmetry. apply jseqb_neq. congruence.
Qed.

Lemma trimStart_nil (s : jsstring) : trimStart s = [] <-> blank s = true.
Proof.
  induction s as [|c s IH]; simpl.
  - tauto.
  - destruct (is_js_whitespace c); simpl; [exact IH|]. split; congruence.
Qed.

Lemma blank_trimStart (s : jsstring) :
  blank (trimStart s) = true -> trimStart s = [].
Proof.
  induction s as [|c s IH]; simpl; [reflexivity|].
  destruct (is_js_whitespace c) eqn:E; [exact IH|].
  simpl. rewrite E. discriminate.
Qed.

Lemma blank_rev (s : jsstring) : blank (rev s) = blank s.
Proof.
  unfold blank. induction s as [|c s IH]; simpl; [reflexivity|].
  rewrite forallb_app, IH. simpl. rewrite andb_true_r. apply andb_comm.
Qed.

(** [s.trim()] is the empty string exactly when [s] is empty or
    whitespace only. *)
Lemma trim_nil (s : jsstring) : trim s = [] <-> blank s = true.
Proof.
  unfold trim, trimEnd. split.
  - intros H. apply trimStart_nil.
    apply (f_equal (@rev _)) in H. rewrite rev_involutive in H. simpl in H.
    apply trimStart_nil in H. rewrite blank_rev in H.
    now apply blank_trimStart.
  - intros H. apply trimStart_nil in H. rewrite H. reflexivity.
Qed.

Lemma truthy_trim (s : jsstring) : truthy (trim s) = negb (blank s).
Proof.
  destruct (blank s) eqn:B.
  - apply trim_nil in B. now rewrite B.
  - destruct (trim s) eqn:T; [|reflexivity].
    apply trim_nil in T. congruence.
Qed.

End StringFacts.

(** ** Token lists *)
Section TokenFacts.

Lemma valid_token_inv (t : jsstring) :
  valid_token t = true -> t <> [] /\ existsb is_ascii_whitespace t = false.
Proof.
  unfold valid_token, validate. destruct t as [|c t]; [discriminate|].
  destruct (existsb is_ascii_whitespace (c :: t)); [discriminate|].
  split; [discriminate | reflexivity].
Qed.

Lemma contains_In (ts : list jsstring) (t : jsstring) :
  contains ts t = true <-> In t ts.
Proof.
  unfold contains. rewrite existsb_exists. split.
  - intros (u & Hu & E). apply jseqb_eq in E. now subst.
  - intros H. exists t. split; [assumption | apply jseqb_refl].
Qed.

Lemma contains_false (ts : list jsstring) (t : jsstring) :
  contains ts t = false <-> ~ In t ts.
Proof.
  rewrite <- contains_In. destruct (contains ts t); split; congruence.
Qed.

Lemma split_ws_from_token (t cur rest : jsstring) :
  existsb is_ascii_whitespace t = false ->
  split_ws_from cur (t ++ rest) = split_ws_from (rev t ++ cur) rest.
Proof.
  revert cur. induction t as [|c t IH]; intros cur H; simpl in *.
  - reflexivity.
  - apply orb_false_iff in H as [Hc Ht]. rewrite Hc.
    rewrite IH by assumption. now rewrite <- app_assoc.
Qed.

Lemma split_ws_serialize (ts : list jsstring) :
  Forall (fun t => valid_token t = true) ts ->
  split_ws (serialize ts) = ts.
Proof.
  unfold split_ws, serialize. induction 1 as [|t ts Ht Hts IH]; simpl.
  - reflexivity.
  - apply valid_token_inv in Ht as [Hne Hws].
    destruct ts as [|u ts].
    + rewrite <- (app_nil_r t) at 1.
      rewrite split_ws_from_token by assumption. simpl.
      rewrite app_nil_r, rev_involutive.
      destruct (rev t) eqn:R; [|reflexivity].
      apply (f_equal (@rev _)) in R. rewrite rev_involutive in R.
      simpl in R. contradiction.
    + rewrite split_ws_from_token by assumption.
      rewrite app_nil_r.
      change (([32%N] ++ join [32%N] (u :: ts)))
        with (32%N :: join [32%N] (u :: ts)).
      cbn [split_ws_from]. change (is_ascii_whitespace 32%N) with true.
      cbn iota. rewrite IH, rev_involutive.
      destruct (rev t) eqn:R; [|reflexivity].
      apply (f_equal (@rev _)) in R. rewrite rev_involutive in R.
      simpl in R. contradiction.
Qed.

Lemma fold_oset_append (ts acc : list jsstring) :
  NoDup (acc ++ ts) -> fold_left oset_append ts acc = acc ++ ts.
Proof.
  revert acc. induction ts as [|t ts IH]; intros acc H; simpl.
  - now rewrite app_nil_r.
  - assert (Hn : contains acc t = false).
    { apply contains_false. intros Hin.
      apply NoDup_remove_2 in H. apply H. apply in_or_app. now left. }
    unfold oset_append at 2. rewrite Hn.
    rewrite IH; rewrite <- app_assoc; simpl; [reflexivity | assumption].
Qed.

(** Parsing a serialised token set gives the set back. *)
Lemma parse_serialize (ts : list jsstring) :
  wf_tokens ts -> parse (serialize ts) = ts.
Proof.
  intros [Hv Hn]. unfold parse. rewrite split_ws_serialize by assumption.
  now apply fold_oset_append.
Qed.

Lemma split_ws_from_valid (s cur : jsstring) :
  existsb is_ascii_whitespace cur = false ->
  Forall (fun t => valid_token t = true) (split_ws_from cur s).
Proof.
  assert (V : forall c, c <> [] -> existsb is_ascii_whitespace c = false ->
                        valid_token (rev c) = true).
  { intros c Hne Hws. unfold valid_token, validate.
    destruct (rev c) eqn:R.
    - apply (f_equal (@rev _)) in R. rewrite rev_involutive in R.
      simpl in R. contradiction.
    - rewrite <- R.
      replace (existsb is_ascii_whitespace (rev c)) with false; [reflexivity|].
      symmetry. clear R. induction c as [|x c IH]; simpl in *; [reflexivity|].
      apply orb_false_iff in Hws as [Hx Hc]. rewrite existsb_app. simpl.
      rewrite Hx. destruct c; [reflexivity|].
      rewrite IH; [reflexivity | discriminate | assumption]. }
  revert cur. induction s as [|c s IH]; intros cur Hcur; simpl.
  - destruct cur as [|x cur]; constructor; [|constructor].
    apply V; [discriminate | assumption].
  - destruct (is_ascii_whitespace c) eqn:Hc.
    + destruct cur as [|x cur]; [now apply IH|].
      constructor; [apply V; [discriminate | assumption] | now apply IH].
    + apply IH. simpl. now rewrite Hc, Hcur.
Qed.

Lemma oset_append_wf (ts : list jsstring) (t : jsstring) :
  wf_tokens ts -> valid_token t = true -> wf_tokens (oset_append ts t).
Proof.
  intros [Hv Hn] Ht. unfold oset_append.
  destruct (contains ts t) eqn:C; [now split|].
  apply contains_false in C. split.
  - apply Forall_app. split; [assumption | now constructor].
  - apply NoDup_app; [assumption | repeat constructor; intros []|]. hnf.
    intros x Hx [<- | []]. contradiction.
Qed.

Lemma fold_oset_append_wf (ts acc : list jsstring) :
  wf_tokens acc -> Forall (fun t => valid_token t = true) ts ->
  wf_tokens (fold_left oset_append ts acc).
Proof.
  revert acc. induction ts as [|t ts IH]; intros acc Ha Hts; simpl.
  - assumption.
  - inversion Hts; subst. apply IH; [now apply oset_append_wf | assumption].
Qed.

(** What [classList] reads off any attribute value is well formed. *)
Lemma parse_wf (s : jsstring) : wf_tokens (parse s).
Proof.
  unfold parse. apply fold_oset_append_wf.
  - split; constructor.
  - now apply split_ws_from_valid.
Qed.

Lemma remove_token_wf (ts : list jsstring) (t : jsstring) :
  wf_tokens ts -> wf_tokens (remove_token ts t).
Proof.
  intros [Hv Hn]. unfold remove_token. split.
  - apply Forall_forall. intros x Hx. apply filter_In in Hx as [Hx _].
    rewrite Forall_forall in Hv. now apply Hv.
  - now apply NoDup_filter.
Qed.

Lemma contains_remove_same (ts : list jsstring) (t : jsstring) :
  contains (remove_token ts t) t = false.
Proof.
  apply contains_false. unfold remove_token. intros H.
  apply filter_In in H as [_ H]. now rewrite jseqb_refl in H.
Qed.

Lemma contains_remove_other (ts : list jsstring) (t c : jsstring) :
  c <> t -> contains (remove_token ts t) c = contains ts c.
Proof.
  intros Hne. unfold remove_token.
  destruct (contains ts c) eqn:C.
  - apply contains_In. apply contains_In in C. apply filter_In.
    split; [assumption|]. apply negb_true_iff, jseqb_neq. congruence.
  - apply contains_false. apply contains_false in C.
    intros H. apply filter_In in H as [H _]. contradiction.
Qed.

Lemma contains_append_same (ts : list jsstring) (t : jsstring) :
  contains (oset_append ts t) t = true.
Proof.
  unfold oset_append. destruct (contains ts t) eqn:C; [assumption|].
  apply contains_In, in_or_app. right. now left.
Qed.

Lemma contains_append_other (ts : list jsstring) (t c : jsstring) :
  c <> t -> contains (oset_append ts t) c = contains ts c.
Proof.
  intros Hne. unfold oset_append. destruct (contains ts t); [reflexivity|].
  destruct (contains ts c) eqn:C.
  - apply contains_In, in_or_app. left. now apply contains_In.
  - apply contains_false. apply contains_false in C.
    intros H. apply in_app_or in H as [H | [H | []]]; congruence.
Qed.

End TokenFacts.

(** ** The document *)
Section DomFacts.

Lemma forEach_total (sel : Element -> bool)
      (f : Element -> DOMException + Element) (g : Element -> Element)
      (d : Document) :
  (forall e, f e = inr (g e)) ->
  forEach sel f d = inr (map (fun e => if sel e then g e else e) d).
Proof.
  intros Hf. induction d as [|e d IH]; simpl; [reflexivity|].
  rewrite IH. destruct (sel e); [rewrite Hf|]; reflexivity.
Qed.

Lemma classList_remove_valid (t : jsstring) (e : Element) :
  valid_token t = true -> classList_remove t e = inr (strip t e).
Proof.
  unfold valid_token, classList_remove, strip.
  destruct (validate t); [discriminate | reflexivity].
Qed.

Lemma classList_add_valid (t : jsstring) (e : Element) :
  valid_token t = true -> classList_add t e = inr (mark t e).
Proof.
  unfold valid_token, classList_add, mark.
  destruct (validate t); [discriminate | reflexivity].
Qed.

Lemma find_map (q : Element -> bool) (g : Element -> Element) (d : Document) :
  (forall e, q (g e) = q e) ->
  find q (map g d) = option_map g (find q d).
Proof.
  intros Hq. induction d as [|e d IH]; simpl; [reflexivity|].
  rewrite Hq. destruct (q e); [reflexivity | exact IH].
Qed.

(** Looking an element up after a store: either the store is not seen, or
    the element looked up is the one that was replaced. *)
Lemma find_store (q : Element -> bool) (i : jsstring) (b b' : Element)
      (d : Document) :
  getElementById i d = Some b -> q b' = q b ->
  find q (storeById i b' d) = find q d
  \/ (find q d = Some b /\ find q (storeById i b' d) = Some b').
Proof.
  unfold getElementById. intros Hb Hq.
  induction d as [|e d IH]; simpl in *; [discriminate|].
  destruct (jseqb (id e) i) eqn:E.
  - injection Hb as ->. simpl. rewrite Hq.
    destruct (q b); [right; split; reflexivity | left; reflexivity].
  - simpl. destruct (q e); [left; reflexivity | now apply IH].
Qed.

Lemma getElementById_store_same (i : jsstring) (b b' : Element) (d : Document) :
  getElementById i d = Some b -> id b' = i ->
  getElementById i (storeById i b' d) = Some b'.
Proof.
  unfold getElementById. intros Hb Hi.
  induction d as [|e d IH]; simpl in *; [discriminate|].
  destruct (jseqb (id e) i) eqn:E; simpl.
  - now rewrite Hi, jseqb_refl.
  - rewrite E. now apply IH.
Qed.

Lemma getElementById_store_other (i j : jsstring) (b b' : Element)
      (d : Document) :
  getElementById i d = Some b -> id b' = i -> j <> i ->
  getElementById j (storeById i b' d) = getElementById j d.
Proof.
  intros Hb Hi Hj.
  assert (Hid : id b = i).
  { unfold getElementById in Hb. apply find_some in Hb as [_ Hb].
    now apply jseqb_eq in Hb. }
  destruct (find_store (fun e => jseqb (id e) j) i b b' d Hb) as [H | [H _]].
  - rewrite Hi, Hid. reflexivity.
  - exact H.
  - unfold getElementById in H. apply find_some in H as [_ H].
    apply jseqb_eq in H. congruence.
Qed.

Lemma getElementById_id (i : jsstring) (b : Element) (d : Document) :
  getElementById i d = Some b -> id b = i.
Proof.
  unfold getElementById. intros H. apply find_some in H as [_ H].
  now apply jseqb_eq in H.
Qed.

Lemma Forall_store (P : Element -> Prop) (i : jsstring) (b' : Element)
      (d : Document) :
  Forall P d -> P b' -> Forall P (storeById i b' d).
Proof.
  intros Hd Hb. induction Hd as [|e d He Hd IH]; simpl; [constructor|].
  destruct (jseqb (id e) i); constructor; assumption.
Qed.

End DomFacts.

(** ** The handlers *)
Section HandlerFacts.

Lemma closeAllModals_closed (p : Page) : closeAllModals p = Normal (closed p).
Proof.
  unfold closeAllModals, closed.
  rewrite (forEach_total _ _ (strip (lit "visible")))
    by (intros e; now apply classList_remove_valid).
  reflexivity.
Qed.

Lemma updateStatusBadge_badged (text cls : jsstring) (p : Page) :
  valid_token cls = true ->
  updateStatusBadge text cls p = Normal (badged text cls p).
Proof.
  intros Hv. unfold updateStatusBadge, badged, sb.
  destruct (getElementById (lit "status-badge") (document p)); [|reflexivity].
  rewrite classList_add_valid by assumption. reflexivity.
Qed.

(** Every handler returns, and its effect is [after]. *)
Lemma handler_after (t : Transition) (p : Page) :
  handler t p = Normal (after t p).
Proof.
  destruct t; unfold handler, after;
    [unfold submitForReview | unfold approveRecord | unfold rejectRecord
    | unfold lockRecord | unfold unlockRecord | unfold archiveRecord];
    rewrite closeAllModals_closed; cbn [andThen];
    rewrite updateStatusBadge_badged by reflexivity; reflexivity.
Qed.

Lemma unveil_keeps (c : jsstring) (e : Element) :
  id (unveil c e) = id e /\ testid (unveil c e) = testid e /\
  textContent (unveil c e) = textContent e /\ value (unveil c e) = value e /\
  children (unveil c e) = children e.
Proof. unfold unveil. destruct (hasClass c e); repeat split; reflexivity. Qed.

Lemma sb_neq_tc : sb <> tc.
Proof. discriminate. Qed.

(** *** The badge across the three steps of a handler *)

Lemma badge_closed (p : Page) :
  badge (closed p) = option_map (unveil (lit "modal-overlay")) (badge p).
Proof.
  unfold badge, closed, getElementById. simpl. apply find_map.
  intros e. now destruct (unveil_keeps (lit "modal-overlay") e) as [-> _].
Qed.

Lemma badge_badged (text cls : jsstring) (p : Page) :
  badge (badged text cls p) = option_map (restyle text cls) (badge p).
Proof.
  unfold badge, badged. fold sb.
  destruct (getElementById sb (document p)) as [b|] eqn:Hb; simpl.
  - eapply getElementById_store_same; [exact Hb|].
    simpl. now apply getElementById_id in Hb.
  - exact Hb.
Qed.

Lemma badge_showToast (type msg : jsstring) (p : Page) :
  badge (showToast type msg p) = badge p.
Proof.
  unfold badge, showToast. fold tc sb.
  destruct (getElementById tc (document p)) as [c|] eqn:Hc; simpl;
    [|reflexivity].
  eapply getElementById_store_other; [exact Hc | | exact sb_neq_tc].
  simpl. now apply getElementById_id in Hc.
Qed.

Lemma badge_after (t : Transition) (p : Page) :
  badge (after t p)
  = option_map (fun b => restyle (status_text (to_status t))
                                 (status_class (to_status t))
                                 (unveil (lit "modal-overlay") b))
               (badge p).
Proof.
  unfold after. rewrite badge_showToast, badge_badged, badge_closed.
  now destruct (badge p).
Qed.

Lemma status_of_text_status_text (s : Status) :
  status_of_text (status_text s) = Some s.
Proof. destruct s; reflexivity. Qed.

Lemma status_of_text_inv (x : jsstring) (s : Status) :
  status_of_text x = Some s -> x = status_text s.
Proof.
  unfold status_of_text. intros H. apply find_some in H as [_ H].
  now apply jseqb_eq in H.
Qed.

Lemma page_status_badge (p : Page) (s : Status) :
  page_status p = Some s ->
  exists b, badge p = Some b /\ textContent b = status_text s.
Proof.
  unfold page_status. destruct (badge p) as [b|]; [|discriminate].
  intros H. exists b. split; [reflexivity | now apply status_of_text_inv].
Qed.

(** With a badge on the page, the handler of [t] leaves it showing the
    To status of [t], whatever it showed before. *)
Lemma page_status_after (t : Transition) (p : Page) (b : Element) :
  badge p = Some b -> page_status (after t p) = Some (to_status t).
Proof.
  intros Hb. unfold page_status. rewrite badge_after, Hb. simpl.
  apply status_of_text_status_text.
Qed.

Lemma page_status_after_none (t : Transition) (p : Page) :
  badge p = None -> page_status (after t p) = None.
Proof.
  intros Hb. unfold page_status. now rewrite badge_after, Hb.
Qed.

(** *** The toasts *)

Lemma toasts_closed (p : Page) : toasts (closed p) = toasts p.
Proof.
  unfold toasts, closed, getElementById. simpl.
  rewrite (find_map _ (unveil (lit "modal-overlay"))).
  - destruct (find _ (document p)) as [c|]; simpl; [|reflexivity].
    f_equal. apply unveil_keeps.
  - intros e. now destruct (unveil_keeps (lit "modal-overlay") e) as [-> _].
Qed.

Lemma toasts_badged (text cls : jsstring) (p : Page) :
  toasts (badged text cls p) = toasts p.
Proof.
  unfold toasts, badged. fold tc.
  destruct (getElementById sb (document p)) as [b|] eqn:Hb; simpl;
    [|reflexivity].
  f_equal. eapply getElementById_store_other; [exact Hb | |].
  - simpl. now apply getElementById_id in Hb.
  - intros E. symmetry in E. now apply sb_neq_tc.
Qed.

Lemma toasts_showToast (type msg : jsstring) (p : Page) :
  toasts (showToast type msg p)
  = option_map (fun l => l ++ [toast type msg]) (toasts p).
Proof.
  unfold toasts, showToast. fold tc.
  destruct (getElementById tc (document p)) as [c|] eqn:Hc; simpl.
  - erewrite getElementById_store_same; [reflexivity | exact Hc |].
    simpl. now apply getElementById_id in Hc.
  - now rewrite Hc.
Qed.

(** Every handler shows exactly one toast, of type success. *)
Lemma toasts_after (t : Transition) (p : Page) :
  toasts (after t p)
  = option_map (fun l => l ++ [toast (lit "success") (success_message t)])
               (toasts p).
Proof.
  unfold after. now rewrite toasts_showToast, toasts_badged, toasts_closed.
Qed.

(** *** Any other element, found by its test id *)

Lemma query_closed (i : jsstring) (p : Page) :
  queryByTestId i (document (closed p))
  = option_map (unveil (lit "modal-overlay")) (queryByTestId i (document p)).
Proof.
  unfold closed, queryByTestId. simpl. apply find_map.
  intros e. now destruct (unveil_keeps (lit "modal-overlay") e) as (_ & -> & _).
Qed.

Lemma query_badged (i text cls : jsstring) (p : Page) :
  queryByTestId i (document (badged text cls p)) = queryByTestId i (document p)
  \/ exists b, badge p = Some b
               /\ queryByTestId i (document p) = Some b
               /\ queryByTestId i (document (badged text cls p))
                  = Some (restyle text cls b).
Proof.
  unfold badged, badge. fold sb.
  destruct (getElementById sb (document p)) as [b|] eqn:Hb;
    [|left; reflexivity].
  simpl.
  destruct (find_store (fun e => jseqb (testid e) i) sb b
                       (restyle text cls b) (document p) Hb eq_refl)
    as [H | [H1 H2]].
  - left. exact H.
  - right. exists b. repeat split; assumption.
Qed.

Lemma query_showToast (i type msg : jsstring) (p : Page) :
  queryByTestId i (document (showToast type msg p))
  = queryByTestId i (document p)
  \/ exists c, getElementById tc (document p) = Some c
               /\ queryByTestId i (document p) = Some c
               /\ queryByTestId i (document (showToast type msg p))
                  = Some (appendChild (toast type msg) c).
Proof.
  unfold showToast. fold tc.
  destruct (getElementById tc (document p)) as [c|] eqn:Hc;
    [|left; reflexivity].
  simpl.
  destruct (find_store (fun e => jseqb (testid e) i) tc c
                       (appendChild (toast type msg) c) (document p) Hc eq_refl)
    as [H | [H1 H2]].
  - left. exact H.
  - right. exists c. repeat split; assumption.
Qed.

Lemma query_after_none (i : jsstring) (t : Transition) (p : Page) :
  queryByTestId i (document p) = None ->
  queryByTestId i (document (after t p)) = None.
Proof.
  intros H0. unfold after.
  assert (H1 : queryByTestId i (document (closed p)) = None)
    by now rewrite query_closed, H0.
  set (text := status_text (to_status t)) in *.
  set (cls := status_class (to_status t)) in *.
  assert (H2 : queryByTestId i (document (badged text cls (closed p))) = None).
  { destruct (query_badged i text cls (closed p)) as [H | (b & _ & H & _)];
      congruence. }
  destruct (query_showToast i (lit "success") (success_message t)
                            (badged text cls (closed p)))
    as [H | (c & _ & H & _)]; congruence.
Qed.

Lemma query_after (i : jsstring) (t : Transition) (p : Page) (e : Element) :
  queryByTestId i (document p) = Some e ->
  exists e', queryByTestId i (document (after t p)) = Some e' /\ kept p e e'.
Proof.
  intros H0. unfold after.
  set (text := status_text (to_status t)).
  set (cls := status_class (to_status t)).
  set (mo := lit "modal-overlay").
  destruct (unveil_keeps mo e) as (Ui & Ut & Ux & Uv & Uc).
  assert (H1 : queryByTestId i (document (closed p)) = Some (unveil mo e))
    by now rewrite query_closed, H0.
  (* after the badge update *)
  assert (H2 : exists e2,
             queryByTestId i (document (badged text cls (closed p))) = Some e2
             /\ kept p e e2).
  { destruct (query_badged i text cls (closed p)) as [H | (b1 & Hb1 & Hq & H)].
    - exists (unveil mo e). split; [congruence|].
      repeat split; try assumption; left; assumption.
    - rewrite H1 in Hq. injection Hq as <-.
      exists (restyle text cls (unveil mo e)). split; [exact H|].
      assert (Hid : id e = sb).
      { rewrite <- Ui. now apply getElementById_id in Hb1. }
      rewrite badge_closed in Hb1.
      destruct (badge p) as [b|] eqn:Hb; [|discriminate].
      simpl in Hb1. injection Hb1 as Hb1.
      repeat split.
      + simpl. exact Ui.
      + simpl. exact Uv.
      + right. exists b. repeat split; [exact Hb | | exact Hid].
        destruct (unveil_keeps mo b) as (_ & _ & <- & _).
        fold mo in Hb1. now rewrite Hb1.
      + right. left. exact Hid. }
  destruct H2 as (e2 & H2 & (Ki & Kv & Kx & Kc)).
  (* after the toast *)
  destruct (query_showToast i (lit "success") (success_message t)
                            (badged text cls (closed p)))
    as [H | (c & Hc & Hq & H)].
  - exists e2. split; [congruence|]. repeat split; assumption.
  - rewrite H2 in Hq. injection Hq as <-.
    exists (appendChild (toast (lit "success") (success_message t)) e2).
    split; [exact H|].
    repeat split; try assumption.
    right. right. rewrite <- Ki. now apply getElementById_id in Hc.
Qed.

Lemma activity_log_after (t : Transition) (p : Page) :
  log_detached p = true ->
  activity_log (after t p) = activity_log p /\ log_detached (after t p) = true.
Proof.
  unfold activity_log, log_detached.
  destruct (queryByTestId (lit "activity-log") (document p)) as [e|] eqn:Hq.
  - intros Hd. apply andb_true_iff in Hd as [Hs Ht].
    apply negb_true_iff, jseqb_neq in Hs, Ht.
    destruct (query_after _ t p e Hq) as (e' & -> & Ki & _ & _ & Kc).
    rewrite Ki. split.
    + destruct Kc as [Kc | [Kc | Kc]]; [exact Kc | contradiction..].
    + apply andb_true_iff.
      split; apply negb_true_iff, jseqb_neq; assumption.
  - intros _. now rewrite (query_after_none _ t p Hq).
Qed.

(** What is typed in a modal's textarea stays there. *)
Lemma page_input_after (u t : Transition) (p : Page) :
  page_input u (after t p) = page_input u p.
Proof.
  unfold page_input. destruct (input_testid u) as [i|]; [|reflexivity].
  destruct (queryByTestId i (document p)) as [e|] eqn:Hq.
  - destruct (query_after _ t p e Hq) as (e' & -> & _ & Kv & _).
    simpl. now rewrite Kv.
  - now rewrite (query_after_none _ t p Hq).
Qed.

Lemma role_of_status_text (s : Status) : role_of_text (status_text s) = None.
Proof. destruct s; reflexivity. Qed.

(** The role shown in the user menu stays as well. *)
Lemma page_role_after (t : Transition) (p : Page) (s : Status) (r : Role) :
  page_status p = Some s -> page_role p = Some r ->
  page_role (after t p) = Some r.
Proof.
  intros Hs. unfold page_role.
  destruct (queryByTestId (lit "user-role-badge") (document p)) as [e|] eqn:Hq;
    [|discriminate].
  intros Hr.
  destruct (query_after _ t p e Hq) as (e' & -> & _ & _ & Kx & _).
  destruct Kx as [-> | (b & Hb & Hx & _)]; [exact Hr|].
  apply page_status_badge in Hs as (b0 & Hb0 & Hs).
  unfold badge in Hb0. fold sb in Hb0. rewrite Hb in Hb0. injection Hb0 as <-.
  rewrite <- Hx, Hs, role_of_status_text in Hr. discriminate.
Qed.

(** *** Sequences of calls *)

Lemma run_after (ts : list Transition) (p : Page) :
  run ts p = Normal (fold_left (fun q t => after t q) ts p).
Proof.
  revert p. induction ts as [|t ts IH]; intros p; simpl; [reflexivity|].
  rewrite handler_after. simpl. apply IH.
Qed.

Lemma all_table_reachable (s : Status) : table_reachable Draft s.
Proof.
  assert (P : table_reachable Draft PendingReview).
  { apply (reach_step _ Draft SubmitForReview); [constructor|].
    split; [now left | reflexivity]. }
  assert (A : table_reachable Draft Approved).
  { apply (reach_step _ PendingReview Approve); [exact P|].
    split; [now left | reflexivity]. }
  destruct s.
  - constructor.
  - exact P.
  - exact A.
  - apply (reach_step _ PendingReview Reject); [exact P|].
    split; [now left | reflexivity].
  - apply (reach_step _ Approved Lock); [exact A|].
    split; [now left | reflexivity].
  - apply (reach_step _ Approved Archive); [exact A|].
    split; [now left | reflexivity].
Qed.

Lemma all_statuses_complete (s : Status) : In s all_statuses.
Proof. destruct s; simpl; tauto. Qed.

End HandlerFacts.

(** ** The claims about the workflow handlers *)
Section Workflow.

(** C1.  From a record in Draft, whatever sequence of the six workflow
    handlers is called, every call returns and the badge then shows the
    text of one of the six statuses; that status is one the transition
    table of section 4.1 reaches from Draft. *)
Theorem C1_status_is_one_of_six (ts : list Transition) (p : Page) :
  page_status p = Some Draft ->
  exists p' b s,
    run ts p = Normal p' /\ badge p' = Some b /\
    textContent b = status_text s /\ page_status p' = Some s /\
    In s all_statuses /\ table_reachable Draft s.
Proof.
  intros H. rewrite run_after.
  assert (G : forall ts p s0, page_status p = Some s0 ->
              exists s, page_status
                          (fold_left (fun q t => after t q) ts p) = Some s).
  { clear. induction ts as [|t ts IH]; intros p s0 H; simpl.
    - now exists s0.
    - apply page_status_badge in H as (b & Hb & _).
      apply (IH _ (to_status t)). now apply (page_status_after t p b). }
  destruct (G ts p Draft H) as (s & Hs).
  destruct (page_status_badge _ _ Hs) as (b & Hb & Hx).
  exists (fold_left (fun q t => after t q) ts p), b, s.
  repeat split; try assumption.
  - apply all_statuses_complete.
  - apply all_table_reachable.
Qed.

Lemma C1_witness :
  page_status draft_page = Some Draft /\
  exists p' b s,
    run [Lock; Reject; SubmitForReview] draft_page = Normal p' /\
    badge p' = Some b /\ textContent b = status_text s /\
    page_status p' = Some s /\ In s all_statuses /\ table_reachable Draft s.
Proof.
  split; [reflexivity|].
  apply (C1_status_is_one_of_six [Lock; Reject; SubmitForReview] draft_page).
  reflexivity.
Defined.

(** C2 as stated fails: Approve on a Draft record fails the From guard,
    yet the status changes. *)
Lemma C2_counterexample :
  page_guard Approve draft_page = Some InvalidTransition /\
  page_status draft_page = Some Draft /\
  page_status (page_of (handler Approve draft_page)) = Some Approved /\
  page_status (page_of (handler Approve draft_page)) <> page_status draft_page.
Proof. vm_compute. repeat split; try reflexivity. discriminate. Qed.

(** C2, amended.  A request on which a guard of section 4.1 fails is not
    refused: the handler returns and shows its success toast, and unless
    the record is missing the status becomes the To status of the
    transition; when the record is missing the toast is shown all the
    same and only the status is left as it was.  No entry is added to
    the activity log. *)
Theorem C2_guards_not_enforced (t : Transition) (p : Page) (err : WorkflowError) :
  page_guard t p = Some err -> log_detached p = true ->
  exists p',
    handler t p = Normal p' /\
    activity_log p' = activity_log p /\
    (err = NotFound -> page_status p' = page_status p) /\
    (err <> NotFound -> page_status p' = Some (to_status t)) /\
    toasts p' = option_map
                  (fun l => l ++ [toast (lit "success") (success_message t)])
                  (toasts p).
Proof.
  intros Hg Hd. exists (after t p).
  split; [apply handler_after|].
  split; [now apply activity_log_after|].
  split; [|split; [|apply toasts_after]].
  - intros ->. unfold page_guard in Hg.
    destruct (badge p) as [b|] eqn:Hb.
    + destruct (status_of_text (textContent b)); [|discriminate].
      unfold guard in Hg.
      repeat match type of Hg with
             | (if ?c then _ else _) = _ => destruct c
             end; discriminate.
    + rewrite (page_status_after_none t p Hb).
      unfold page_status. now rewrite Hb.
  - intros Hne. unfold page_guard in Hg.
    destruct (badge p) as [b|] eqn:Hb; [|congruence].
    now apply (page_status_after t p b).
Qed.

Lemma C2_witness :
  page_guard Approve draft_page = Some InvalidTransition /\
  log_detached draft_page = true /\
  exists p',
    handler Approve draft_page = Normal p' /\
    activity_log p' = activity_log draft_page /\
    (InvalidTransition = NotFound -> page_status p' = page_status draft_page) /\
    (InvalidTransition <> NotFound -> page_status p' = Some (to_status Approve)) /\
    toasts p' = option_map
                  (fun l => l ++ [toast (lit "success") (success_message Approve)])
                  (toasts draft_page).
Proof.
  split; [reflexivity|]. split; [reflexivity|].
  apply (C2_guards_not_enforced Approve draft_page InvalidTransition);
    reflexivity.
Defined.

(** C3 as stated fails: a whitespace-only reason fails the input guard,
    yet the record is rejected. *)
Lemma C3_counterexample :
  page_status pending_blank_reason_page = Some PendingReview /\
  page_input Reject pending_blank_reason_page = Some (lit "   ") /\
  blank (lit "   ") = true /\
  page_guard Reject pending_blank_reason_page = Some MissingRequiredInput /\
  page_status (page_of (rejectRecord pending_blank_reason_page))
  = Some Rejected /\
  page_status (page_of (rejectRecord pending_blank_reason_page))
  <> page_status pending_blank_reason_page.
Proof. vm_compute. repeat split; try reflexivity. discriminate. Qed.

(** C3, amended.  [rejectRecord] does not read the reason: a Reject by a
    Reviewer or an Admin on a record in PendingReview returns, shows its
    success toast and leaves the status Rejected, whether the reason is
    empty, whitespace only, or not. *)
Theorem C3_reject_ignores_reason (p : Page) (r : Role) (reason : jsstring) :
  page_status p = Some PendingReview ->
  page_role p = Some r -> In r [Reviewer; Admin] ->
  page_input Reject p = Some reason ->
  exists p',
    rejectRecord p = Normal p' /\
    page_status p' = Some Rejected /\
    toasts p' = option_map
                  (fun l => l ++ [toast (lit "success") (lit "Record rejected")])
                  (toasts p).
Proof.
  intros Hs _ _ _. exists (after Reject p).
  split; [apply (handler_after Reject)|].
  apply page_status_badge in Hs as (b & Hb & _).
  split; [now apply (page_status_after Reject p b) | apply toasts_after].
Qed.

Lemma C3_witness :
  page_status pending_blank_reason_page = Some PendingReview /\
  page_role pending_blank_reason_page = Some Admin /\
  In Admin [Reviewer; Admin] /\
  page_input Reject pending_blank_reason_page = Some (lit "   ") /\
  exists p',
    rejectRecord pending_blank_reason_page = Normal p' /\
    page_status p' = Some Rejected /\
    toasts p' = option_map
                  (fun l => l ++ [toast (lit "success") (lit "Record rejected")])
                  (toasts pending_blank_reason_page).
Proof.
  split; [reflexivity|]. split; [reflexivity|].
  split; [right; left; reflexivity|]. split; [reflexivity|].
  apply (C3_reject_ignores_reason pending_blank_reason_page Admin (lit "   "));
    try reflexivity.
  right; left; reflexivity.
Defined.

(** C4 as stated fails: a Viewer's Approve fails the role guard, yet the
    record is approved. *)
Lemma C4_counterexample :
  page_status pending_viewer_page = Some PendingReview /\
  page_role pending_viewer_page = Some Viewer /\
  page_guard Approve pending_viewer_page = Some Forbidden /\
  page_status (page_of (approveRecord pending_viewer_page)) = Some Approved /\
  page_status (page_of (approveRecord pending_viewer_page))
  <> Some PendingReview.
Proof. vm_compute. repeat split; try reflexivity. discriminate. Qed.

(** C4, amended.  [approveRecord] does not read the role: on a record in
    PendingReview, an Approve by a Viewer returns, shows its success toast
    and leaves the status Approved; no entry is added to the activity
    log. *)
Theorem C4_viewer_approve_not_refused (p : Page) :
  page_status p = Some PendingReview -> page_role p = Some Viewer ->
  log_detached p = true ->
  exists p',
    approveRecord p = Normal p' /\
    page_status p' = Some Approved /\
    activity_log p' = activity_log p /\
    toasts p' = option_map
                  (fun l => l ++ [toast (lit "success") (lit "Record approved")])
                  (toasts p).
Proof.
  intros Hs _ Hd. exists (after Approve p).
  split; [apply (handler_after Approve)|].
  apply page_status_badge in Hs as (b & Hb & _).
  split; [now apply (page_status_after Approve p b)|].
  split; [now apply activity_log_after | apply toasts_after].
Qed.

Lemma C4_witness :
  page_status pending_viewer_page = Some PendingReview /\
  page_role pending_viewer_page = Some Viewer /\
  log_detached pending_viewer_page = true /\
  exists p',
    approveRecord pending_viewer_page = Normal p' /\
    page_status p' = Some Approved /\
    activity_log p' = activity_log pending_viewer_page /\
    toasts p' = option_map
                  (fun l => l ++ [toast (lit "success") (lit "Record approved")])
                  (toasts pending_viewer_page).
Proof.
  repeat (split; [reflexivity|]).
  apply (C4_viewer_approve_not_refused pending_viewer_page); reflexivity.
Defined.

(** C5 as stated fails: an Unlock with an empty justification fails the
    input guard, yet the record is unlocked. *)
Lemma C5_counterexample :
  page_status locked_page = Some Locked /\
  page_input Unlock locked_page = Some [] /\
  page_guard Unlock locked_page = Some MissingRequiredInput /\
  page_status (page_of (unlockRecord locked_page)) = Some Approved /\
  page_status (page_of (unlockRecord locked_page)) <> Some Locked.
Proof. vm_compute. repeat split; try reflexivity. discriminate. Qed.

(** C5, amended.  [unlockRecord] does not read the justification: on a
    Locked record, an Unlock whose justification is absent, empty or
    whitespace only returns, shows its success toast and leaves the status
    Approved, whatever the actor's role. *)
Theorem C5_unlock_ignores_justification (p : Page) :
  page_status p = Some Locked -> no_input (page_input Unlock p) = true ->
  exists p',
    unlockRecord p = Normal p' /\
    page_status p' = Some Approved /\
    toasts p' = option_map
                  (fun l => l ++ [toast (lit "success") (lit "Record unlocked")])
                  (toasts p).
Proof.
  intros Hs _. exists (after Unlock p).
  split; [apply (handler_after Unlock)|].
  apply page_status_badge in Hs as (b & Hb & _).
  split; [now apply (page_status_after Unlock p b) | apply toasts_after].
Qed.

Lemma C5_witness :
  page_status locked_page = Some Locked /\
  no_input (page_input Unlock locked_page) = true /\
  exists p',
    unlockRecord locked_page = Normal p' /\
    page_status p' = Some Approved /\
    toasts p' = option_map
                  (fun l => l ++ [toast (lit "success") (lit "Record unlocked")])
                  (toasts locked_page).
Proof.
  repeat (split; [reflexivity|]).
  apply (C5_unlock_ignores_justification locked_page); reflexivity.
Defined.

(** C6 as stated fails: Unlock on an Archived record fails the From guard,
    yet the record leaves Archived. *)
Lemma C6_counterexample :
  page_status archived_page = Some Archived /\
  page_guard Unlock archived_page = Some InvalidTransition /\
  page_status (page_of (unlockRecord archived_page)) = Some Approved /\
  page_status (page_of (unlockRecord archived_page)) <> Some Archived.
Proof. vm_compute. repeat split; try reflexivity. discriminate. Qed.

(** C6, amended.  Archived is not absorbing in [app.js]: on an Archived
    record every handler returns, shows its success toast and sets the
    status to its own To status, so the record stays Archived under
    [archiveRecord] only. *)
Theorem C6_archived_not_absorbing (t : Transition) (p : Page) :
  page_status p = Some Archived ->
  exists p',
    handler t p = Normal p' /\
    page_status p' = Some (to_status t) /\
    (page_status p' = Some Archived <-> t = Archive) /\
    toasts p' = option_map
                  (fun l => l ++ [toast (lit "success") (success_message t)])
                  (toasts p).
Proof.
  intros Hs. exists (after t p).
  split; [apply handler_after|].
  apply page_status_badge in Hs as (b & Hb & _).
  assert (Ht : page_status (after t p) = Some (to_status t))
    by now apply (page_status_after t p b).
  split; [exact Ht|]. split; [|apply toasts_after].
  rewrite Ht. destruct t; simpl; split; congruence.
Qed.

Lemma C6_witness :
  page_status archived_page = Some Archived /\
  exists p',
    handler Unlock archived_page = Normal p' /\
    page_status p' = Some (to_status Unlock) /\
    (page_status p' = Some Archived <-> Unlock = Archive) /\
    toasts p' = option_map
                  (fun l => l ++ [toast (lit "success") (success_message Unlock)])
                  (toasts archived_page).
Proof.
  split; [reflexivity|].
  apply (C6_archived_not_absorbing Unlock archived_page). reflexivity.
Defined.

(** C7 as stated fails: after Lock and Unlock on an Approved record whose
    activity log is empty, the log is still empty. *)
Lemma C7_counterexample :
  page_status approved_page = Some Approved /\
  page_role approved_page = Some Admin /\
  page_input Unlock approved_page = Some (lit "audit correction") /\
  activity_log approved_page = [] /\
  page_status (page_of (lockRecord approved_page ;; unlockRecord))
  = Some Approved /\
  activity_log (page_of (lockRecord approved_page ;; unlockRecord)) = [] /\
  List.length (activity_log (page_of (lockRecord approved_page ;; unlockRecord)))
  <> 2.
Proof. vm_compute. repeat split; try reflexivity. discriminate. Qed.

(** C7, amended.  On an Approved record, an Admin's Lock followed by an
    Admin's Unlock with a non-empty justification is a round trip of the
    status: both calls return, the status is Locked in between and
    Approved in the end, while role and justification stay on the page.
    The activity log gets no entry; what the two calls leave in order are
    their two success toasts. *)
Theorem C7_lock_unlock_round_trip (p : Page) (j : jsstring) :
  page_status p = Some Approved -> page_role p = Some Admin ->
  page_input Unlock p = Some j -> blank j = false ->
  log_detached p = true ->
  exists p1 p2,
    lockRecord p = Normal p1 /\ page_status p1 = Some Locked /\
    page_role p1 = Some Admin /\ page_input Unlock p1 = Some j /\
    unlockRecord p1 = Normal p2 /\ page_status p2 = Some Approved /\
    activity_log p2 = activity_log p /\
    toasts p2 = option_map
                  (fun l => l ++ [toast (lit "success") (lit "Record locked");
                                  toast (lit "success") (lit "Record unlocked")])
                  (toasts p).
Proof.
  intros Hs Hr Hj _ Hd.
  exists (after Lock p), (after Unlock (after Lock p)).
  destruct (page_status_badge _ _ Hs) as (b & Hb & _).
  assert (H1 : page_status (after Lock p) = Some Locked)
    by now apply (page_status_after Lock p b).
  destruct (page_status_badge _ _ H1) as (b1 & Hb1 & _).
  destruct (activity_log_after Lock p Hd) as [L1 D1].
  destruct (activity_log_after Unlock _ D1) as [L2 _].
  split; [apply (handler_after Lock)|].
  split; [exact H1|].
  split; [now apply (page_role_after Lock p Approved)|].
  split; [now rewrite page_input_after|].
  split; [apply (handler_after Unlock)|].
  split; [now apply (page_status_after Unlock _ b1)|].
  split; [congruence|].
  rewrite !toasts_after. destruct (toasts p) as [l|]; simpl; [|reflexivity].
  now rewrite <- app_assoc.
Qed.

Lemma C7_witness :
  page_status approved_logged_page = Some Approved /\
  page_role approved_logged_page = Some Admin /\
  page_input Unlock approved_logged_page = Some (lit "audit correction") /\
  blank (lit "audit correction") = false /\
  log_detached approved_logged_page = true /\
  exists p1 p2,
    lockRecord approved_logged_page = Normal p1 /\
    page_status p1 = Some Locked /\
    page_role p1 = Some Admin /\
    page_input Unlock p1 = Some (lit "audit correction") /\
    unlockRecord p1 = Normal p2 /\ page_status p2 = Some Approved /\
    activity_log p2 = activity_log approved_logged_page /\
    toasts p2 = option_map
                  (fun l => l ++ [toast (lit "success") (lit "Record locked");
                                  toast (lit "success") (lit "Record unlocked")])
                  (toasts approved_logged_page).
Proof.
  repeat (split; [reflexivity|]).
  apply (C7_lock_unlock_round_trip approved_logged_page
                                   (lit "audit correction")); reflexivity.
Defined.

End Workflow.

(** ** The engine facade *)
Section EngineFacts.

Lemma status_eqb_eq (a b : Status) : status_eqb a b = true <-> a = b.
Proof. destruct a, b; simpl; split; congruence. Qed.

Lemma role_eqb_eq (a b : Role) : role_eqb a b = true <-> a = b.
Proof. destruct a, b; simpl; split; congruence. Qed.

(** C8.  [availableTransitions record actor] holds no transition whose
    From set lacks the record's status and none whose role set lacks the
    actor's role. *)
Theorem C8_availableTransitions_sound (r : Record_) (a : Actor) (t : Transition) :
  In t (availableTransitions r a) ->
  In (status r) (from_set t) /\ In (role a) (role_set t).
Proof.
  unfold availableTransitions, canInvoke. intros H.
  apply filter_In in H as [_ H]. apply andb_true_iff in H as [Hf Hr].
  apply existsb_exists in Hf as (s & Hs & Es).
  apply existsb_exists in Hr as (x & Hx & Ex).
  apply status_eqb_eq in Es. apply role_eqb_eq in Ex. subst. now split.
Qed.

Lemma C8_witness :
  In Archive (availableTransitions (mkRecord 7 Rejected) (mkActor Editor)) /\
  In (status (mkRecord 7 Rejected)) (from_set Archive) /\
  In (role (mkActor Editor)) (role_set Archive).
Proof.
  split; [simpl; tauto|].
  apply (C8_availableTransitions_sound (mkRecord 7 Rejected) (mkActor Editor)).
  simpl; tauto.
Defined.

End EngineFacts.

(** ** Record-form validation *)
Section Validation.

Lemma whenPresent_amend (i : jsstring) (f : Element -> DOMException + Element)
      (g : Element -> Element) (p : Page) :
  (forall el, f el = inr (g el)) -> whenPresent i f p = Normal (amend i g p).
Proof.
  intros Hf. unfold whenPresent, amend.
  destruct (getElementById i (document p)); [now rewrite Hf | reflexivity].
Qed.

Lemma amend_same (i : jsstring) (g : Element -> Element) (p : Page)
      (el : Element) :
  (forall x, id (g x) = id x) ->
  getElementById i (document p) = Some el ->
  getElementById i (document (amend i g p)) = Some (g el).
Proof.
  intros Hg H. unfold amend. rewrite H. simpl.
  eapply getElementById_store_same; [exact H|].
  rewrite Hg. now apply getElementById_id in H.
Qed.

Lemma amend_same_inv (i : jsstring) (g : Element -> Element) (p : Page)
      (s : Element) :
  (forall x, id (g x) = id x) ->
  getElementById i (document (amend i g p)) = Some s ->
  exists el, getElementById i (document p) = Some el /\ s = g el.
Proof.
  intros Hg Hs.
  destruct (getElementById i (document p)) as [el|] eqn:H.
  - rewrite (amend_same i g p el Hg H) in Hs. injection Hs as <-.
    now exists el.
  - unfold amend in Hs. rewrite H in Hs. congruence.
Qed.

Lemma amend_other (i j : jsstring) (g : Element -> Element) (p : Page) :
  (forall x, id (g x) = id x) -> j <> i ->
  getElementById j (document (amend i g p)) = getElementById j (document p).
Proof.
  intros Hg Hj. unfold amend.
  destruct (getElementById i (document p)) as [el|] eqn:H; [|reflexivity].
  simpl. eapply getElementById_store_other; [exact H | | exact Hj].
  rewrite Hg. now apply getElementById_id in H.
Qed.

Lemma amend_timers (i : jsstring) (g : Element -> Element) (p : Page) :
  timers (amend i g p) = timers p.
Proof.
  unfold amend. now destruct (getElementById i (document p)).
Qed.

Lemma amend_Forall (P : Element -> Prop) (i : jsstring)
      (g : Element -> Element) (p : Page) :
  Forall P (document p) -> (forall el, id el = i -> P (g el)) ->
  Forall P (document (amend i g p)).
Proof.
  intros Hd Hg. unfold amend.
  destruct (getElementById i (document p)) as [el|] eqn:H; [|exact Hd].
  simpl. apply Forall_store; [exact Hd|].
  apply Hg. now apply getElementById_id in H.
Qed.

Lemma hasClass_strip_same (t : jsstring) (el : Element) :
  hasClass t (strip t el) = false.
Proof.
  unfold hasClass, strip, classList. simpl.
  rewrite parse_serialize by (apply remove_token_wf, parse_wf).
  apply contains_remove_same.
Qed.

Lemma hasClass_strip_other (t c : jsstring) (el : Element) :
  c <> t -> hasClass c (strip t el) = hasClass c el.
Proof.
  intros Hne. unfold hasClass, strip, classList. simpl.
  rewrite parse_serialize by (apply remove_token_wf, parse_wf).
  now apply contains_remove_other.
Qed.

Lemma hasClass_mark_same (t : jsstring) (el : Element) :
  valid_token t = true -> hasClass t (mark t el) = true.
Proof.
  intros Hv. unfold hasClass, mark, classList. simpl.
  rewrite parse_serialize by (apply oset_append_wf; [apply parse_wf | exact Hv]).
  apply contains_append_same.
Qed.

Lemma reset_lookup (i : jsstring) (p : Page) (el : Element) :
  getElementById i (document p) = Some el ->
  exists el', getElementById i (document (reset p)) = Some el' /\
              id el' = id el /\ value el' = value el /\
              children el' = children el /\ textContent el' = textContent el /\
              (i <> fes -> el' = unveil (lit "form-error") el).
Proof.
  intros H. unfold reset.
  set (p0 := with_document p (map (unveil (lit "form-error")) (document p))).
  assert (H0 : getElementById i (document p0)
               = Some (unveil (lit "form-error") el)).
  { unfold p0, getElementById. simpl.
    rewrite (find_map _ (unveil (lit "form-error"))).
    - unfold getElementById in H. now rewrite H.
    - intros e. now destruct (unveil_keeps (lit "form-error") e) as [-> _]. }
  destruct (unveil_keeps (lit "form-error") el) as (Ui & _ & Ux & Uv & Uc).
  destruct (list_eq_dec N.eq_dec i fes) as [-> | Hne].
  - exists (strip (lit "visible") (unveil (lit "form-error") el)).
    split; [now apply amend_same|].
    repeat split; try assumption. congruence.
  - exists (unveil (lit "form-error") el).
    split; [now rewrite amend_other|].
    repeat split; assumption.
Qed.

Lemma reset_lookup_none (i : jsstring) (p : Page) :
  getElementById i (document p) = None ->
  getElementById i (document (reset p)) = None.
Proof.
  intros H. unfold reset.
  set (p0 := with_document p (map (unveil (lit "form-error")) (document p))).
  assert (H0 : getElementById i (document p0) = None).
  { unfold p0, getElementById. simpl.
    rewrite (find_map _ (unveil (lit "form-error"))).
    - unfold getElementById in H. now rewrite H.
    - intros e. now destruct (unveil_keeps (lit "form-error") e) as [-> _]. }
  unfold amend. destruct (getElementById fes (document p0)) as [s|] eqn:Hs;
    [|exact H0].
  simpl. destruct (list_eq_dec N.eq_dec i fes) as [-> | Hne]; [congruence|].
  rewrite <- H0. eapply getElementById_store_other; [exact Hs | | exact Hne].
  simpl. now apply getElementById_id in Hs.
Qed.

Lemma reset_timers (p : Page) : timers (reset p) = timers p.
Proof. unfold reset. now rewrite amend_timers. Qed.

(** After the reset no error message is shown. *)
Lemma reset_hidden (p : Page) : Forall error_hidden (document (reset p)).
Proof.
  unfold reset. apply amend_Forall.
  - simpl. apply Forall_forall. intros el' Hin.
    apply in_map_iff in Hin as (el & <- & _).
    unfold error_hidden, unveil.
    destruct (hasClass (lit "form-error") el) eqn:Hc.
    + intros _. apply hasClass_strip_same.
    + congruence.
  - intros el _ _. apply hasClass_strip_same.
Qed.

Lemma titleMissing_reset (p : Page) : titleMissing (reset p) = titleMissing p.
Proof.
  unfold titleMissing.
  destruct (getElementById (lit "input-record-title") (document p))
    as [title|] eqn:H.
  - destruct (reset_lookup _ p title H) as (t' & -> & _ & -> & _).
    reflexivity.
  - now rewrite (reset_lookup_none _ p H).
Qed.

(** [validateRecordForm] always returns, with the default action of the
    event prevented; it takes the failure branch exactly when the title
    input is missing or blank. *)
Lemma validateRecordForm_eq (e : Event) (p : Page) :
  validateRecordForm e p
  = (mkEvent true,
     Normal (if titleMissing p then refused p else accepted p)).
Proof.
  unfold validateRecordForm, preventDefault. f_equal.
  rewrite (forEach_total _ _ (strip (lit "visible")))
    by (intros el; now apply classList_remove_valid).
  cbn [andThen].
  rewrite (whenPresent_amend _ _ (strip (lit "visible")))
    by (intros el; now apply classList_remove_valid).
  cbn [andThen]. fold fes.
  change (amend fes (strip (lit "visible")) _) with (reset p).
  rewrite titleMissing_reset.
  destruct (titleMissing p); [|reflexivity].
  rewrite (whenPresent_amend _ _ (mark (lit "visible")))
    by (intros el; now apply classList_add_valid).
  cbn [andThen].
  rewrite (whenPresent_amend _ _
             (fun s => set_textContent summary_text (mark (lit "visible") s)))
    by (intros el; now rewrite classList_add_valid).
  reflexivity.
Qed.

(** Without a title input on the page, validation fails as well. *)
Lemma validateRecordForm_without_title (e : Event) (p : Page) :
  getElementById (lit "input-record-title") (document p) = None ->
  validateRecordForm e p = (mkEvent true, Normal (refused p)).
Proof.
  intros H. rewrite validateRecordForm_eq. unfold titleMissing. now rewrite H.
Qed.

Lemma showToast_lookup (j type msg : jsstring) (p : Page) :
  j <> tc ->
  getElementById j (document (showToast type msg p))
  = getElementById j (document p).
Proof.
  intros Hj. unfold showToast. fold tc.
  destruct (getElementById tc (document p)) as [c|] eqn:Hc; [|reflexivity].
  simpl. eapply getElementById_store_other; [exact Hc | | exact Hj].
  simpl. now apply getElementById_id in Hc.
Qed.

Lemma showToast_timers (type msg : jsstring) (p : Page) :
  exists ts, timers (showToast type msg p) = timers p ++ ts.
Proof.
  unfold showToast. destruct (getElementById _ (document p)).
  - eexists. reflexivity.
  - exists []. now rewrite app_nil_r.
Qed.

Lemma showToast_Forall (P : Element -> Prop) (type msg : jsstring) (p : Page) :
  Forall P (document p) ->
  (forall c, P c -> P (appendChild (toast type msg) c)) ->
  Forall P (document (showToast type msg p)).
Proof.
  intros Hd Hp. unfold showToast.
  destruct (getElementById _ (document p)) as [c|] eqn:Hc; [|exact Hd].
  simpl. apply Forall_store; [exact Hd|]. apply Hp.
  unfold getElementById in Hc. apply find_some in Hc as [Hin _].
  rewrite Forall_forall in Hd. now apply Hd.
Qed.

Lemma toasts_reset (p : Page) : toasts (reset p) = toasts p.
Proof.
  unfold toasts. fold tc.
  destruct (getElementById tc (document p)) as [c|] eqn:Hc.
  - destruct (reset_lookup tc p c Hc) as (c' & -> & _ & _ & Hk & _).
    simpl. now rewrite Hk.
  - now rewrite (reset_lookup_none tc p Hc).
Qed.

Lemma toasts_amend (i : jsstring) (g : Element -> Element) (p : Page) :
  (forall x, id (g x) = id x) -> i <> tc ->
  toasts (amend i g p) = toasts p.
Proof.
  intros Hg Hi. unfold toasts. fold tc. rewrite amend_other; auto.
Qed.

Lemma fet_neq_fes : fet <> fes. Proof. discriminate. Qed.
Lemma fes_neq_tc : fes <> tc. Proof. discriminate. Qed.
Lemma fet_neq_tc : fet <> tc. Proof. discriminate. Qed.

(** C9.  [validateRecordForm] decides on the title alone.  With a title
    that is not blank it takes the success path: the success toast, the
    redirect to the record detail page, and no error message left
    showing.  With a blank title it fails: no toast, no redirect, the
    title's field error and the summary showing when the page has them,
    and no other error message, the Type field's included. *)
Theorem C9_validation_checks_title_only (e : Event) (p : Page) (title : Element) :
  getElementById (lit "input-record-title") (document p) = Some title ->
  exists p',
    validateRecordForm e p = (mkEvent true, Normal p') /\
    (blank (value title) = false ->
     toasts p' = option_map
                   (fun l => l ++ [toast (lit "success")
                                         (lit "Record created successfully!")])
                   (toasts p) /\
     (exists ts, timers p'
                 = timers p ++ ts
                   ++ [mkTimer 1200 (SetLocation (lit "record-detail.html"))]) /\
     Forall error_hidden (document p') /\
     (forall s, getElementById fes (document p') = Some s ->
                hasClass (lit "visible") s = false)) /\
    (blank (value title) = true ->
     toasts p' = toasts p /\ timers p' = timers p /\
     Forall only_title_error (document p') /\
     (forall err, getElementById fet (document p) = Some err ->
        exists err', getElementById fet (document p') = Some err' /\
                     hasClass (lit "visible") err' = true) /\
     (forall s, getElementById fes (document p) = Some s ->
        exists s', getElementById fes (document p') = Some s' /\
                   hasClass (lit "visible") s' = true /\
                   textContent s' = summary_text)).
Proof.
  intros Ht.
  assert (Hm : titleMissing p = blank (value title)).
  { unfold titleMissing. rewrite Ht, truthy_trim. apply negb_involutive. }
  exists (if titleMissing p then refused p else accepted p).
  split; [apply validateRecordForm_eq|]. rewrite Hm. split; intros ->.
  - (* the title is there *)
    unfold accepted. repeat split.
    + unfold toasts at 1. simpl. fold (toasts (showToast (lit "success")
        (lit "Record created successfully!") (reset p))).
      now rewrite toasts_showToast, toasts_reset.
    + simpl.
      destruct (showToast_timers (lit "success")
                  (lit "Record created successfully!") (reset p)) as (ts & ->).
      exists ts. now rewrite reset_timers, <- app_assoc.
    + simpl. apply showToast_Forall; [apply reset_hidden|].
      intros c Hc. exact Hc.
    + simpl. intros s. rewrite showToast_lookup by exact fes_neq_tc.
      unfold reset. intros Hs.
      apply amend_same_inv in Hs as (el & _ & ->); [|reflexivity].
      apply hasClass_strip_same.
  - (* the title is blank *)
    unfold refused. repeat split.
    + rewrite !toasts_amend; try reflexivity;
        [apply toasts_reset | exact fet_neq_tc | exact fes_neq_tc].
    + now rewrite !amend_timers, reset_timers.
    + apply amend_Forall; [apply amend_Forall|].
      * eapply Forall_impl; [|apply reset_hidden].
        intros el Hh Hc Hv. rewrite (Hh Hc) in Hv. discriminate.
      * intros el Hi _ _. left. exact Hi.
      * intros el Hi _ _. right. exact Hi.
    + intros err He.
      destruct (reset_lookup fet p err He) as (err1 & H1 & _).
      exists (mark (lit "visible") err1). split.
      * rewrite amend_other; [| reflexivity | exact fet_neq_fes].
        now apply amend_same.
      * now apply hasClass_mark_same.
    + intros s Hs.
      destruct (reset_lookup fes p s Hs) as (s1 & H1 & _).
      exists (set_textContent summary_text (mark (lit "visible") s1)).
      split; [|split].
      * apply (amend_same fes (fun x => set_textContent summary_text
                                          (mark (lit "visible") x)));
          [reflexivity|].
        rewrite amend_other; [exact H1 | reflexivity |].
        intros E. symmetry in E. now apply fet_neq_fes.
      * change (hasClass (lit "visible") (mark (lit "visible") s1) = true).
        now apply hasClass_mark_same.
      * reflexivity.
Qed.

Lemma C9_witness :
  getElementById (lit "input-record-title")
                 (document (form_page (lit " Q4 review ") []))
  = Some (mkElement (lit "input-record-title") (lit "input-record-title")
                    (lit "form-input") [] (lit " Q4 review ") []) /\
  exists p',
    validateRecordForm (mkEvent false) (form_page (lit " Q4 review ") [])
    = (mkEvent true, Normal p') /\
    (blank (lit " Q4 review ") = false ->
     toasts p' = option_map
                   (fun l => l ++ [toast (lit "success")
                                         (lit "Record created successfully!")])
                   (toasts (form_page (lit " Q4 review ") [])) /\
     (exists ts, timers p'
                 = timers (form_page (lit " Q4 review ") []) ++ ts
                   ++ [mkTimer 1200 (SetLocation (lit "record-detail.html"))]) /\
     Forall error_hidden (document p') /\
     (forall s, getElementById fes (document p') = Some s ->
                hasClass (lit "visible") s = false)) /\
    (blank (lit " Q4 review ") = true ->
     toasts p' = toasts (form_page (lit " Q4 review ") []) /\
     timers p' = timers (form_page (lit " Q4 review ") []) /\
     Forall only_title_error (document p') /\
     (forall err,
        getElementById fet (document (form_page (lit " Q4 review ") []))
        = Some err ->
        exists err', getElementById fet (document p') = Some err' /\
                     hasClass (lit "visible") err' = true) /\
     (forall s,
        getElementById fes (document (form_page (lit " Q4 review ") []))
        = Some s ->
        exists s', getElementById fes (document p') = Some s' /\
                   hasClass (lit "visible") s' = true /\
                   textContent s' = summary_text)).
Proof.
  split; [reflexivity|].
  apply (C9_validation_checks_title_only
           (mkEvent false) (form_page (lit " Q4 review ") [])
           (mkElement (lit "input-record-title") (lit "input-record-title")
                      (lit "form-input") [] (lit " Q4 review ") [])).
  reflexivity.
Defined.

End Validation.

(** ** The status badge *)
Section Badge.

Lemma restyle_classList (text cls : jsstring) (b : Element) :
  valid_token cls = true -> cls <> lit "badge" ->
  classList (restyle text cls b) = [lit "badge"; cls].
Proof.
  intros Hv Hne.
  change (classList (restyle text cls b))
    with (parse (serialize (oset_append (parse (lit "badge")) cls))).
  change (parse (lit "badge")) with [lit "badge"].
  assert (Hc : contains [lit "badge"] cls = false).
  { apply contains_false. intros [E | []]. congruence. }
  unfold oset_append. rewrite Hc. apply parse_serialize. split.
  - repeat constructor. exact Hv.
  - repeat constructor; simpl; [|tauto]. intros [E | []]. congruence.
Qed.

(** Without a badge on the page, [updateStatusBadge] does nothing. *)
Lemma updateStatusBadge_without_badge (text cls : jsstring) (p : Page) :
  badge p = None -> updateStatusBadge text cls p = Normal p.
Proof.
  unfold badge, updateStatusBadge. now intros ->.
Qed.

(** With a class that is no token, [classList.add] throws after the
    class attribute has been overwritten and before the text is set. *)
Example updateStatusBadge_empty_class :
  exists p',
    updateStatusBadge (lit "Archived") [] locked_page = Throw SyntaxError p' /\
    option_map className (badge p') = Some (lit "badge") /\
    option_map textContent (badge p') = Some (lit "Locked").
Proof. eexists. repeat split. Qed.

Lemma status_modifier_inv (cls : jsstring) :
  is_status_modifier cls = true -> exists s, cls = status_class s.
Proof.
  unfold is_status_modifier. intros H.
  apply existsb_exists in H as (s & _ & E). apply jseqb_eq in E. now exists s.
Qed.

Lemma status_class_token (s : Status) :
  valid_token (status_class s) = true /\ status_class s <> lit "badge" /\
  is_status_modifier (status_class s) = true.
Proof. destruct s; repeat split; discriminate. Qed.

(** C10.  On a page with a badge, [updateStatusBadge text cls] with a
    status-modifier class [cls] returns and leaves the badge with exactly
    the classes [badge] and [cls], whatever classes it had, and with the
    text [text]; so after any workflow handler the badge carries one
    status-modifier class, that of the handler's status. *)
Theorem C10_badge_has_one_modifier (text cls : jsstring) (p : Page) (b : Element) :
  badge p = Some b -> is_status_modifier cls = true ->
  (exists p' b',
     updateStatusBadge text cls p = Normal p' /\ badge p' = Some b' /\
     classList b' = [lit "badge"; cls] /\ textContent b' = text /\
     filter is_status_modifier (classList b') = [cls]) /\
  (forall t, exists q b',
     handler t p = Normal q /\ badge q = Some b' /\
     classList b' = [lit "badge"; status_class (to_status t)] /\
     textContent b' = status_text (to_status t) /\
     filter is_status_modifier (classList b')
     = [status_class (to_status t)]).
Proof.
  intros Hb Hm.
  assert (F : forall c, is_status_modifier c = true ->
                        filter is_status_modifier [lit "badge"; c] = [c]).
  { intros c Hc. cbn [filter]. rewrite Hc. reflexivity. }
  split.
  - destruct (status_modifier_inv cls Hm) as (s & ->).
    destruct (status_class_token s) as (Hv & Hne & _).
    exists (badged text (status_class s) p), (restyle text (status_class s) b).
    split; [now apply updateStatusBadge_badged|].
    split; [now rewrite badge_badged, Hb|].
    rewrite restyle_classList by assumption.
    repeat split. now apply F.
  - intros t.
    destruct (status_class_token (to_status t)) as (Hv & Hne & Hs).
    eexists (after t p), _.
    split; [apply handler_after|].
    split; [rewrite badge_after, Hb; reflexivity|].
    rewrite restyle_classList by assumption.
    repeat split. now apply F.
Qed.

Lemma C10_witness :
  badge locked_page
  = Some (mkElement (lit "status-badge") (lit "status-badge")
                    (lit "badge badge--locked") (lit "Locked") [] []) /\
  is_status_modifier (lit "badge--archived") = true /\
  (exists p' b',
     updateStatusBadge (lit "Archived") (lit "badge--archived") locked_page
     = Normal p' /\ badge p' = Some b' /\
     classList b' = [lit "badge"; lit "badge--archived"] /\
     textContent b' = lit "Archived" /\
     filter is_status_modifier (classList b') = [lit "badge--archived"]) /\
  (forall t, exists q b',
     handler t locked_page = Normal q /\ badge q = Some b' /\
     classList b' = [lit "badge"; status_class (to_status t)] /\
     textContent b' = status_text (to_status t) /\
     filter is_status_modifier (classList b')
     = [status_class (to_status t)]).
Proof.
  split; [reflexivity|]. split; [reflexivity|].
  apply (C10_badge_has_one_modifier
           (lit "Archived") (lit "badge--archived") locked_page
           (mkElement (lit "status-badge") (lit "status-badge")
                      (lit "badge badge--locked") (lit "Locked") [] []));
    reflexivity.
Defined.

End Badge.

(** * The other controls *)

(** ** Classes under [add], [remove] and [toggle] *)
Section ClassFacts.

Lemma hasClass_mark_other (t c : jsstring) (el : Element) :
  valid_token t = true -> c <> t -> hasClass c (mark t el) = hasClass c el.
Proof.
  intros Hv Hne. unfold hasClass, mark, classList. simpl.
  rewrite parse_serialize by (apply oset_append_wf; [apply parse_wf | exact Hv]).
  now apply contains_append_other.
Qed.

Lemma classList_toggle_valid (t : jsstring) (e : Element) :
  valid_token t = true -> classList_toggle t e = inr (toggled t e).
Proof.
  unfold valid_token, classList_toggle, toggled, hasClass, strip, mark.
  destruct (validate t); [discriminate|].
  now destruct (contains (classList e) t).
Qed.

Lemma hasClass_toggled_same (t : jsstring) (el : Element) :
  valid_token t = true -> hasClass t (toggled t el) = negb (hasClass t el).
Proof.
  intros Hv. unfold toggled. destruct (hasClass t el) eqn:H; simpl.
  - apply hasClass_strip_same.
  - now apply hasClass_mark_same.
Qed.

Lemma hasClass_toggled_other (t c : jsstring) (el : Element) :
  valid_token t = true -> c <> t -> hasClass c (toggled t el) = hasClass c el.
Proof.
  intros Hv Hne. unfold toggled. destruct (hasClass t el).
  - now apply hasClass_strip_other.
  - now apply hasClass_mark_other.
Qed.

Lemma strip_same_but_class (t : jsstring) (el : Element) :
  same_but_class el (strip t el).
Proof. repeat split. Qed.


Lemma toggled_same_but_class (t : jsstring) (el : Element) :
  same_but_class el (toggled t el).
Proof. unfold toggled. destruct (hasClass t el); repeat split. Qed.

Lemma same_but_class_trans (a b c : Element) :
  same_but_class a b -> same_but_class b c -> same_but_class a c.
Proof.
  unfold same_but_class. intros (A1 & A2 & A3 & A4 & A5) (B1 & B2 & B3 & B4 & B5).
  repeat split; congruence.
Qed.

(** Toggling a class twice gives the element its classes back. *)
Lemma toggled_twice (t : jsstring) (el : Element) :
  valid_token t = true -> same_classes el (toggled t (toggled t el)).
Proof.
  intros Hv c. destruct (list_eq_dec N.eq_dec c t) as [-> | Hne].
  - rewrite !hasClass_toggled_same by assumption. apply negb_involutive.
  - now rewrite !hasClass_toggled_other.
Qed.

End ClassFacts.

(** ** Elements found by a selector *)
Section SelectorFacts.

Lemma whenFound_revise (q : Element -> bool)
      (f : Element -> DOMException + Element) (g : Element -> Element)
      (p : Page) :
  (forall el, f el = inr (g el)) -> whenFound q f p = Normal (revise q g p).
Proof.
  intros Hf. unfold whenFound, revise.
  destruct (find q (document p)); [now rewrite Hf | reflexivity].
Qed.

Lemma find_storeFirst (q : Element -> bool) (e e' : Element) (d : Document) :
  find q d = Some e -> q e' = true -> find q (storeFirst q e' d) = Some e'.
Proof.
  intros H Hq. induction d as [|x d IH]; simpl in *; [discriminate|].
  destruct (q x) eqn:E; simpl.
  - now rewrite Hq.
  - rewrite E. now apply IH.
Qed.

(** A store changes one element, the one found; every other place of the
    document keeps its element. *)
Lemma storeFirst_frame (q : Element -> bool) (e e' : Element) (d : Document) :
  find q d = Some e ->
  Forall2 (fun x x' => x' = x \/ (x = e /\ x' = e')) d (storeFirst q e' d).
Proof.
  intros H. induction d as [|x d IH]; simpl in *; [discriminate|].
  destruct (q x) eqn:E.
  - injection H as ->. constructor; [right; now split|].
    clear. induction d; constructor; auto.
  - constructor; [now left | now apply IH].
Qed.

Lemma storeById_storeFirst (i : jsstring) (e' : Element) (d : Document) :
  storeById i e' d = storeFirst (fun e => jseqb (id e) i) e' d.
Proof.
  induction d as [|x d IH]; simpl; [reflexivity|]. now rewrite IH.
Qed.

Lemma storeById_frame (i : jsstring) (e e' : Element) (d : Document) :
  getElementById i d = Some e ->
  Forall2 (fun x x' => x' = x \/ (x = e /\ x' = e')) d (storeById i e' d).
Proof.
  intros H. rewrite storeById_storeFirst. now apply storeFirst_frame.
Qed.

Lemma Forall2_refl_eq (R : Element -> Element -> Prop) (d : Document) :
  (forall x, R x x) -> Forall2 R d d.
Proof. intros HR. induction d; constructor; auto. Qed.

Lemma Forall2_trans_el (R1 R2 R3 : Element -> Element -> Prop)
      (a b c : Document) :
  (forall x y z, R1 x y -> R2 y z -> R3 x z) ->
  Forall2 R1 a b -> Forall2 R2 b c -> Forall2 R3 a c.
Proof.
  intros HR H1. revert c. induction H1 as [|x y a b Hxy Hab IH]; intros c H2.
  - inversion H2. constructor.
  - inversion H2; subst. constructor; eauto.
Qed.

Lemma Forall2_map_right (R : Element -> Element -> Prop)
      (g : Element -> Element) (d : Document) :
  (forall x, R x (g x)) -> Forall2 R d (map g d).
Proof. intros HR. induction d; simpl; constructor; auto. Qed.

Lemma amend_frame (i : jsstring) (g : Element -> Element) (p : Page) :
  Forall2 (fun x x' => x' = x \/ (id x = i /\ x' = g x))
          (document p) (document (amend i g p)).
Proof.
  unfold amend.
  destruct (getElementById i (document p)) as [el|] eqn:H; simpl.
  - eapply Forall2_impl; [|apply (storeById_frame i el (g el)), H].
    intros x x' [-> | [-> ->]]; [now left | right].
    split; [now apply getElementById_id in H | reflexivity].
  - apply Forall2_refl_eq. now left.
Qed.

Lemma revise_frame (q : Element -> bool) (g : Element -> Element) (p : Page) :
  Forall2 (fun x x' => x' = x \/ (q x = true /\ x' = g x))
          (document p) (document (revise q g p)).
Proof.
  unfold revise.
  destruct (find q (document p)) as [el|] eqn:H; simpl.
  - eapply Forall2_impl; [|apply (storeFirst_frame q el (g el)), H].
    intros x x' [-> | [-> ->]]; [now left | right].
    split; [now apply find_some in H | reflexivity].
  - apply Forall2_refl_eq. now left.
Qed.

End SelectorFacts.

(** ** Modals *)
Section Modals.

Lemma openModal_amend (m : jsstring) (p : Page) :
  m <> [] -> openModal m p = Normal (amend m (mark (lit "visible")) p).
Proof.
  intros Hm. unfold openModal. destruct m; [contradiction|].
  apply whenPresent_amend. intros el. now apply classList_add_valid.
Qed.

Lemma closeModal_amend (m : jsstring) (p : Page) :
  m <> [] -> closeModal m p = Normal (amend m (strip (lit "visible")) p).
Proof.
  intros Hm. unfold closeModal. destruct m; [contradiction|].
  apply whenPresent_amend. intros el. now apply classList_remove_valid.
Qed.

(** With the empty id neither function touches the page, elements
    without an id included. *)
Lemma openModal_closeModal_empty_id (p : Page) :
  openModal [] p = Normal p /\ closeModal [] p = Normal p.
Proof. split; reflexivity. Qed.

(** X1.  For a non-empty id, [openModal(id)] shows the element with that
    id and [closeModal(id)] hides it again: after the two calls the
    element is not visible, and nothing else of it has changed, its other
    classes included. *)
Theorem openModal_then_closeModal (m : jsstring) (p : Page) (el : Element) :
  m <> [] ->
  getElementById m (document p) = Some el ->
  exists p1 p2 el1 el2,
    openModal m p = Normal p1 /\
    getElementById m (document p1) = Some el1 /\
    hasClass (lit "visible") el1 = true /\
    closeModal m p1 = Normal p2 /\
    getElementById m (document p2) = Some el2 /\
    hasClass (lit "visible") el2 = false /\
    (forall c, c <> lit "visible" -> hasClass c el2 = hasClass c el) /\
    same_but_class el el2.
Proof.
  intros Hm H.
  exists (amend m (mark (lit "visible")) p),
         (amend m (strip (lit "visible")) (amend m (mark (lit "visible")) p)),
         (mark (lit "visible") el),
         (strip (lit "visible") (mark (lit "visible") el)).
  assert (H1 : getElementById m (document (amend m (mark (lit "visible")) p))
               = Some (mark (lit "visible") el))
    by now apply amend_same.
  split; [now apply openModal_amend|]. split; [exact H1|].
  split; [now apply hasClass_mark_same|].
  split; [now apply closeModal_amend|].
  split; [now apply amend_same|].
  split; [apply hasClass_strip_same|]. split.
  - intros c Hc. rewrite hasClass_strip_other by assumption.
    now apply hasClass_mark_other.
  - repeat split.
Qed.

Lemma openModal_then_closeModal_witness :
  lit "modal-unlock" <> [] /\
  getElementById (lit "modal-unlock") (document shell_page)
  = Some (mkElement (lit "modal-unlock") (lit "modal-unlock")
                    (lit "modal-overlay") [] [] []) /\
  exists p1 p2 el1 el2,
    openModal (lit "modal-unlock") shell_page = Normal p1 /\
    getElementById (lit "modal-unlock") (document p1) = Some el1 /\
    hasClass (lit "visible") el1 = true /\
    closeModal (lit "modal-unlock") p1 = Normal p2 /\
    getElementById (lit "modal-unlock") (document p2) = Some el2 /\
    hasClass (lit "visible") el2 = false /\
    (forall c, c <> lit "visible" ->
               hasClass c el2
               = hasClass c (mkElement (lit "modal-unlock") (lit "modal-unlock")
                                       (lit "modal-overlay") [] [] [])) /\
    same_but_class (mkElement (lit "modal-unlock") (lit "modal-unlock")
                              (lit "modal-overlay") [] [] []) el2.
Proof.
  split; [discriminate|]. split; [reflexivity|].
  apply (openModal_then_closeModal (lit "modal-unlock") shell_page);
    [discriminate | reflexivity].
Defined.

Lemma unveil_modal_closed (e : Element) :
  modal_closed (unveil (lit "modal-overlay") e).
Proof.
  unfold modal_closed, unveil.
  destruct (hasClass (lit "modal-overlay") e) eqn:H.
  - intros _. apply hasClass_strip_same.
  - congruence.
Qed.

Lemma closed_modal_closed (p : Page) : Forall modal_closed (document (closed p)).
Proof.
  unfold closed. simpl. apply Forall_forall. intros e' Hin.
  apply in_map_iff in Hin as (e & <- & _). apply unveil_modal_closed.
Qed.

(** X2.  [closeAllModals()] always returns and leaves no modal overlay
    visible.  An element that is no modal overlay is left as it is, and a
    modal overlay loses nothing but the class [visible]; no timer is
    set. *)
Theorem closeAllModals_closes_every_modal (p : Page) :
  exists p',
    closeAllModals p = Normal p' /\
    Forall modal_closed (document p') /\
    Forall2 (fun e e' =>
               (hasClass (lit "modal-overlay") e = false -> e' = e) /\
               same_but_class e e' /\
               (forall c, c <> lit "visible" -> hasClass c e' = hasClass c e))
            (document p) (document p') /\
    timers p' = timers p.
Proof.
  exists (closed p). split; [apply closeAllModals_closed|].
  split; [apply closed_modal_closed|]. split; [|reflexivity].
  unfold closed. simpl. apply Forall2_map_right. intros e.
  unfold unveil. destruct (hasClass (lit "modal-overlay") e) eqn:H.
  - split; [discriminate|]. split; [repeat split|].
    intros c Hc. now apply hasClass_strip_other.
  - repeat split.
Qed.

(** X3.  Of all keys only Escape closes the modals: a [keydown] with
    another key, [Esc] or [escape] included, leaves the page as it is. *)
Theorem onKeydown_escape_only (key : jsstring) (p : Page) :
  (key = lit "Escape" ->
   exists p', onKeydown key p = Normal p' /\ Forall modal_closed (document p')) /\
  (key <> lit "Escape" -> onKeydown key p = Normal p).
Proof.
  unfold onKeydown. split.
  - intros ->. rewrite jseqb_refl. exists (closed p).
    split; [apply closeAllModals_closed | apply closed_modal_closed].
  - intros Hne. apply jseqb_neq in Hne. now rewrite Hne.
Qed.

Lemma nth_error_storeAt_same (k : nat) (e e' : Element) (d : Document) :
  nth_error d k = Some e -> nth_error (storeAt k e' d) k = Some e'.
Proof.
  revert k. induction d as [|x d IH]; intros [|k] H; simpl in *;
    try discriminate; [reflexivity | now apply IH].
Qed.

Lemma nth_error_storeAt_other (k j : nat) (e' : Element) (d : Document) :
  j <> k -> nth_error (storeAt k e' d) j = nth_error d j.
Proof.
  revert k j. induction d as [|x d IH]; intros [|k] [|j] H; simpl;
    try reflexivity; [contradiction | apply IH; congruence].
Qed.

(** X4.  The first click listener, on a click on a modal overlay, closes
    that overlay and no other: the clicked element loses [visible] and
    keeps [modal-overlay], every other element, another open modal
    included, stays as it is.  For a click on any other element this
    listener changes nothing (what the second click listener does then
    is not part of it). *)
Theorem onClickOverlay_closes_target_only (k : nat) (p : Page) (el : Element) :
  nth_error (document p) k = Some el ->
  exists p',
    onClickOverlay k p = Normal p' /\
    (hasClass (lit "modal-overlay") el = false -> p' = p) /\
    (hasClass (lit "modal-overlay") el = true ->
     exists el',
       nth_error (document p') k = Some el' /\
       hasClass (lit "visible") el' = false /\
       hasClass (lit "modal-overlay") el' = true /\
       same_but_class el el' /\
       forall j, j <> k -> nth_error (document p') j = nth_error (document p) j).
Proof.
  intros H. unfold onClickOverlay. rewrite H.
  destruct (hasClass (lit "modal-overlay") el) eqn:Hm.
  - rewrite classList_remove_valid by reflexivity.
    eexists. split; [reflexivity|]. split; [discriminate|]. intros _.
    exists (strip (lit "visible") el). simpl.
    split; [now apply (nth_error_storeAt_same k el)|].
    split; [apply hasClass_strip_same|].
    split; [rewrite hasClass_strip_other; [exact Hm | discriminate]|].
    split; [repeat split|].
    intros j Hj. now apply nth_error_storeAt_other.
  - exists p. split; [reflexivity|]. split; [reflexivity | discriminate].
Qed.

Lemma onClickOverlay_closes_target_only_witness :
  nth_error (document shell_page) 12
  = Some (mkElement (lit "modal-lock") (lit "modal-lock")
                    (lit "modal-overlay visible") [] [] []) /\
  exists p',
    onClickOverlay 12 shell_page = Normal p' /\
    (hasClass (lit "modal-overlay")
              (mkElement (lit "modal-lock") (lit "modal-lock")
                         (lit "modal-overlay visible") [] [] []) = false ->
     p' = shell_page) /\
    (hasClass (lit "modal-overlay")
              (mkElement (lit "modal-lock") (lit "modal-lock")
                         (lit "modal-overlay visible") [] [] []) = true ->
     exists el',
       nth_error (document p') 12 = Some el' /\
       hasClass (lit "visible") el' = false /\
       hasClass (lit "modal-overlay") el' = true /\
       same_but_class (mkElement (lit "modal-lock") (lit "modal-lock")
                                 (lit "modal-overlay visible") [] [] []) el' /\
       forall j, j <> 12 ->
                 nth_error (document p') j = nth_error (document shell_page) j).
Proof.
  split; [reflexivity|].
  apply (onClickOverlay_closes_target_only 12 shell_page). reflexivity.
Defined.

End Modals.

(** ** Menus, panels and the sidebar *)
Section Toggles.

Lemma toggle_amend (m : Panel) (p : Page) :
  toggle m p = Normal (amend (panel_id m) (toggled (lit "visible")) p).
Proof.
  destruct m; unfold toggle, panel_id;
    [unfold toggleUserMenu | unfold toggleNotifications
    | unfold toggleFilters | unfold toggleActionsMenu];
    apply whenPresent_amend; intros el; now apply classList_toggle_valid.
Qed.

(** X5.  Each of [toggleUserMenu], [toggleNotifications], [toggleFilters]
    and [toggleActionsMenu] flips the class [visible] of its element and
    nothing else; called twice it gives the element the classes it had.
    On a page without the element it does nothing. *)
Theorem toggle_flips_and_restores (m : Panel) (p : Page) :
  (getElementById (panel_id m) (document p) = None -> toggle m p = Normal p) /\
  (forall el, getElementById (panel_id m) (document p) = Some el ->
   exists p1 p2 el1 el2,
     toggle m p = Normal p1 /\
     getElementById (panel_id m) (document p1) = Some el1 /\
     hasClass (lit "visible") el1 = negb (hasClass (lit "visible") el) /\
     (forall c, c <> lit "visible" -> hasClass c el1 = hasClass c el) /\
     toggle m p1 = Normal p2 /\
     getElementById (panel_id m) (document p2) = Some el2 /\
     same_classes el el2 /\ same_but_class el el2).
Proof.
  split.
  - intros H. rewrite toggle_amend. unfold amend. now rewrite H.
  - intros el H. set (v := lit "visible").
    exists (amend (panel_id m) (toggled v) p),
           (amend (panel_id m) (toggled v) (amend (panel_id m) (toggled v) p)),
           (toggled v el), (toggled v (toggled v el)).
    assert (Hid : forall x, id (toggled v x) = id x)
      by (intros x; apply toggled_same_but_class).
    assert (H1 : getElementById (panel_id m)
                   (document (amend (panel_id m) (toggled v) p))
                 = Some (toggled v el))
      by now apply amend_same.
    split; [apply toggle_amend|]. split; [exact H1|].
    split; [now apply hasClass_toggled_same|].
    split; [intros c Hc; now apply hasClass_toggled_other|].
    split; [apply toggle_amend|].
    split; [now apply amend_same|].
    split; [now apply toggled_twice|].
    eapply same_but_class_trans; apply toggled_same_but_class.
Qed.

Lemma toggleSidebar_revise (p : Page) :
  toggleSidebar p
  = Normal (revise (hasClass (lit "sidebar"))
                   (toggled (lit "sidebar--collapsed")) p).
Proof.
  unfold toggleSidebar. apply whenFound_revise.
  intros el. now apply classList_toggle_valid.
Qed.

(** X6.  [toggleSidebar()] collapses the first element of class
    [sidebar] or expands it again, and keeps finding that same element:
    after two calls the sidebar has the classes it had, and nothing else
    of it has changed. *)
Theorem toggleSidebar_twice (p : Page) (el : Element) :
  find (hasClass (lit "sidebar")) (document p) = Some el ->
  exists p1 p2 el1 el2,
    toggleSidebar p = Normal p1 /\
    find (hasClass (lit "sidebar")) (document p1) = Some el1 /\
    hasClass (lit "sidebar--collapsed") el1
    = negb (hasClass (lit "sidebar--collapsed") el) /\
    toggleSidebar p1 = Normal p2 /\
    find (hasClass (lit "sidebar")) (document p2) = Some el2 /\
    same_classes el el2 /\ same_but_class el el2.
Proof.
  intros H. set (q := hasClass (lit "sidebar")).
  set (sc := lit "sidebar--collapsed").
  assert (Hq : forall x, q x = true -> q (toggled sc x) = true).
  { intros x Hx. unfold q. rewrite hasClass_toggled_other;
      [exact Hx | reflexivity | discriminate]. }
  assert (Hel : q el = true) by now apply find_some in H.
  assert (F : forall p0 x, find q (document p0) = Some x ->
                find q (document (revise q (toggled sc) p0))
                = Some (toggled sc x)).
  { intros p0 x Hx. unfold revise. rewrite Hx. simpl.
    apply (find_storeFirst q x); [exact Hx|].
    apply Hq. now apply find_some in Hx. }
  exists (revise q (toggled sc) p),
         (revise q (toggled sc) (revise q (toggled sc) p)),
         (toggled sc el), (toggled sc (toggled sc el)).
  split; [apply toggleSidebar_revise|]. split; [now apply F|].
  split; [now apply hasClass_toggled_same|].
  split; [apply toggleSidebar_revise|].
  split; [apply F; now apply F|].
  split; [now apply toggled_twice|].
  eapply same_but_class_trans; apply toggled_same_but_class.
Qed.

Lemma toggleSidebar_twice_witness :
  find (hasClass (lit "sidebar")) (document shell_page)
  = Some (mkElement [] (lit "sidebar-nav") (lit "sidebar") [] [] []) /\
  exists p1 p2 el1 el2,
    toggleSidebar shell_page = Normal p1 /\
    find (hasClass (lit "sidebar")) (document p1) = Some el1 /\
    hasClass (lit "sidebar--collapsed") el1
    = negb (hasClass (lit "sidebar--collapsed")
                     (mkElement [] (lit "sidebar-nav") (lit "sidebar") [] [] [])) /\
    toggleSidebar p1 = Normal p2 /\
    find (hasClass (lit "sidebar")) (document p2) = Some el2 /\
    same_classes (mkElement [] (lit "sidebar-nav") (lit "sidebar") [] [] []) el2 /\
    same_but_class (mkElement [] (lit "sidebar-nav") (lit "sidebar") [] [] []) el2.
Proof.
  split; [reflexivity|].
  apply (toggleSidebar_twice shell_page). reflexivity.
Defined.

End Toggles.

(** ** Notifications, toasts and filters *)
Section Feedback.

Lemma toggle_flips_and_restores_witness :
  exists p1 p2 el1 el2,
    toggle NotificationsPanel shell_page = Normal p1 /\
    getElementById (panel_id NotificationsPanel) (document p1) = Some el1 /\
    hasClass (lit "visible") el1
    = negb (hasClass (lit "visible")
                     (mkElement (lit "notifications-panel")
                                (lit "notifications-panel")
                                (lit "notifications-panel visible") [] [] [])) /\
    (forall c, c <> lit "visible" ->
       hasClass c el1
       = hasClass c (mkElement (lit "notifications-panel")
                               (lit "notifications-panel")
                               (lit "notifications-panel visible") [] [] [])) /\
    toggle NotificationsPanel p1 = Normal p2 /\
    getElementById (panel_id NotificationsPanel) (document p2) = Some el2 /\
    same_classes (mkElement (lit "notifications-panel")
                            (lit "notifications-panel")
                            (lit "notifications-panel visible") [] [] []) el2 /\
    same_but_class (mkElement (lit "notifications-panel")
                              (lit "notifications-panel")
                              (lit "notifications-panel visible") [] [] []) el2.
Proof.
  apply (proj2 (toggle_flips_and_restores NotificationsPanel shell_page)).
  reflexivity.
Defined.

Lemma onKeydown_escape_only_witness :
  exists p', onKeydown (lit "Escape") shell_page = Normal p' /\
             Forall modal_closed (document p').
Proof.
  apply (proj1 (onKeydown_escape_only (lit "Escape") shell_page)).
  reflexivity.
Defined.

Lemma Forall_storeFirst (P : Element -> Prop) (q : Element -> bool)
      (e' : Element) (d : Document) :
  Forall P d -> P e' -> Forall P (storeFirst q e' d).
Proof.
  intros Hd He. induction Hd as [|x d Hx Hd IH]; simpl; [constructor|].
  destruct (q x); constructor; assumption.
Qed.

Lemma storeFirst_same (q : Element -> bool) (e : Element) (d : Document) :
  find q d = Some e -> storeFirst q e d = d.
Proof.
  intros H. induction d as [|x d IH]; simpl in *; [reflexivity|].
  destruct (q x); [congruence | now rewrite IH].
Qed.

Lemma with_document_self (p : Page) : with_document p (document p) = p.
Proof. now destruct p. Qed.

Lemma read_all_read (e : Element) : all_read (read e).
Proof.
  unfold all_read, read, is_unread.
  destruct (hasClass (lit "notification-item") e) eqn:Hn; simpl.
  - destruct (hasClass (lit "unread") e) eqn:Hu.
    + intros _. apply hasClass_strip_same.
    + intros _. exact Hu.
  - congruence.
Qed.

Lemma read_fixed (e : Element) : all_read e -> read e = e.
Proof.
  unfold all_read, read, is_unread. intros H.
  destruct (hasClass (lit "notification-item") e); [|reflexivity].
  now rewrite H.
Qed.

Lemma map_read_fixed (d : Document) : Forall all_read d -> map read d = d.
Proof.
  induction 1 as [|x d Hx Hd IH]; simpl; [reflexivity|].
  now rewrite read_fixed, IH.
Qed.

Lemma markAllRead_eq (p : Page) :
  markAllRead p
  = Normal (revise (hasClass (lit "notification-badge"))
                   (set_textContent (lit "0"))
                   (with_document p (map read (document p)))).
Proof.
  unfold markAllRead.
  rewrite (forEach_total _ _ (strip (lit "unread")))
    by (intros el; now apply classList_remove_valid).
  cbn [andThen]. now apply whenFound_revise.
Qed.

(** X7.  [markAllRead()] always returns; afterwards no notification item
    is unread and the notification badge, when the page has one, shows 0.
    Ids, values and all classes but [unread] are as before, and a second
    call changes nothing. *)
Theorem markAllRead_leaves_none_unread (p : Page) :
  exists p',
    markAllRead p = Normal p' /\
    Forall all_read (document p') /\
    (forall b, find (hasClass (lit "notification-badge")) (document p) = Some b ->
       exists b', find (hasClass (lit "notification-badge")) (document p')
                  = Some b' /\ textContent b' = lit "0") /\
    Forall2 (fun e e' =>
               id e' = id e /\ value e' = value e /\
               forall c, c <> lit "unread" -> hasClass c e' = hasClass c e)
            (document p) (document p') /\
    markAllRead p' = Normal p'.
Proof.
  set (q := hasClass (lit "notification-badge")).
  set (p0 := with_document p (map read (document p))).
  assert (Hr : forall e, id (read e) = id e /\ value (read e) = value e /\
                forall c, c <> lit "unread" -> hasClass c (read e) = hasClass c e).
  { intros e. unfold read. destruct (is_unread e); repeat split.
    intros c Hc. now apply hasClass_strip_other. }
  assert (H0 : Forall all_read (document p0)).
  { unfold p0. simpl. apply Forall_forall. intros e' Hin.
    apply in_map_iff in Hin as (e & <- & _). apply read_all_read. }
  assert (H1 : Forall all_read (document (revise q (set_textContent (lit "0")) p0))).
  { unfold revise. destruct (find q (document p0)) as [b|] eqn:Hb; [|exact H0].
    simpl. apply Forall_storeFirst; [exact H0|].
    apply find_some in Hb as [Hin _]. rewrite Forall_forall in H0.
    exact (H0 b Hin). }
  exists (revise q (set_textContent (lit "0")) p0).
  split; [apply markAllRead_eq|]. split; [exact H1|]. split; [|split].
  - intros b Hb.
    assert (Hb0 : find q (document p0) = Some (read b)).
    { unfold p0. simpl. rewrite find_map; [now rewrite Hb|].
      intros e. unfold q. apply Hr. discriminate. }
    exists (set_textContent (lit "0") (read b)). split; [|reflexivity].
    unfold revise. rewrite Hb0. simpl.
    apply (find_storeFirst q (read b)); [exact Hb0|].
    now apply find_some in Hb0.
  - eapply Forall2_trans_el;
      [| apply (Forall2_map_right (fun e e' => e' = read e)); reflexivity
       | apply (revise_frame q (set_textContent (lit "0")) p0)].
    intros x y z -> [-> | [_ ->]]; apply Hr.
  - rewrite markAllRead_eq. f_equal.
    rewrite map_read_fixed by exact H1. fold q.
    rewrite with_document_self.
    unfold revise at 1.
    destruct (find q (document (revise q (set_textContent (lit "0")) p0)))
      as [b'|] eqn:Hb'.
    + assert (E : set_textContent (lit "0") b' = b').
      { unfold revise in Hb'.
        destruct (find q (document p0)) as [b|] eqn:Hb.
        - simpl in Hb'.
          rewrite (find_storeFirst q b) in Hb';
            [now injection Hb' as <- | exact Hb | now apply find_some in Hb].
        - congruence. }
      rewrite E, (storeFirst_same q b') by exact Hb'.
      apply with_document_self.
    + reflexivity.
Qed.

Lemma showToast_frame (type msg : jsstring) (p : Page) :
  Forall2 (fun x x' => x' = x
                       \/ (id x = tc /\ x' = appendChild (toast type msg) x))
          (document p) (document (showToast type msg p)).
Proof.
  unfold showToast. fold tc.
  destruct (getElementById tc (document p)) as [c|] eqn:H; simpl.
  - eapply Forall2_impl; [|apply (storeById_frame tc c), H].
    intros x x' [-> | [-> ->]]; [now left | right].
    split; [now apply getElementById_id in H | reflexivity].
  - apply Forall2_refl_eq. now left.
Qed.

(** X8.  [showToast(type, message)] on a page with a toast container
    appends one element, of class [toast toast-<type>] and test id
    [toast-<type>], after the toasts already there, and sets one timer of
    4000 ms to remove that element; every element but the container
    stays as it is.  On a page without a container it does nothing at
    all.  (What the new element holds inside is not part of this.) *)
Theorem showToast_appends_one_toast (type msg : jsstring) (p : Page) :
  (getElementById tc (document p) = None -> showToast type msg p = p) /\
  (forall c, getElementById tc (document p) = Some c ->
     exists t,
       child_className t = lit "toast toast-" ++ type /\
       child_testid t = lit "toast-" ++ type /\
       toasts (showToast type msg p) = Some (children c ++ [t]) /\
       timers (showToast type msg p)
       = timers p ++ [mkTimer 4000 (RemoveToast t)] /\
       Forall2 (fun x x' => id x <> tc -> x' = x)
               (document p) (document (showToast type msg p))).
Proof.
  split.
  - intros H. unfold showToast. fold tc. now rewrite H.
  - intros c H. exists (toast type msg).
    split; [reflexivity|]. split; [reflexivity|]. split; [|split].
    + rewrite toasts_showToast. unfold toasts. fold tc. now rewrite H.
    + unfold showToast. fold tc. now rewrite H.
    + eapply Forall2_impl; [|apply showToast_frame].
      intros x x' [-> | [Hx _]] Hne; [reflexivity | contradiction].
Qed.

Lemma showToast_appends_one_toast_witness :
  exists t,
    child_className t = lit "toast toast-" ++ lit "error" /\
    child_testid t = lit "toast-" ++ lit "error" /\
    toasts (showToast (lit "error") (lit "Please enter your email address.")
                      shell_page)
    = Some (children (mkElement (lit "toast-container") []
                                (lit "toast-container") [] [] [])
            ++ [t]) /\
    timers (showToast (lit "error") (lit "Please enter your email address.")
                      shell_page)
    = timers shell_page ++ [mkTimer 4000 (RemoveToast t)] /\
    Forall2 (fun x x' => id x <> tc -> x' = x)
            (document shell_page)
            (document (showToast (lit "error")
                                 (lit "Please enter your email address.")
                                 shell_page)).
Proof.
  apply (proj2 (showToast_appends_one_toast
                  (lit "error") (lit "Please enter your email address.")
                  shell_page)).
  reflexivity.
Defined.

End Feedback.

(** ** Deleting a record, filters *)
Section RecordsList.

Lemma deleteRecord_eq (p : Page) :
  deleteRecord p
  = Normal (setTimeout (SetLocation (lit "records.html")) 1200
              (showToast (lit "success") (lit "Record deleted") (closed p))).
Proof. unfold deleteRecord. now rewrite closeAllModals_closed. Qed.

(** X9.  [deleteRecord()] is no status change: it always returns, leaves
    the text of the status badge (so the status) as it was, closes every
    modal, shows one success toast and sets the timer that leads to the
    records list. *)
Theorem deleteRecord_keeps_status (p : Page) :
  exists p',
    deleteRecord p = Normal p' /\
    option_map textContent (badge p') = option_map textContent (badge p) /\
    page_status p' = page_status p /\
    Forall modal_closed (document p') /\
    toasts p' = option_map
                  (fun l => l ++ [toast (lit "success") (lit "Record deleted")])
                  (toasts p) /\
    exists ts, timers p'
               = timers p ++ ts
                 ++ [mkTimer 1200 (SetLocation (lit "records.html"))].
Proof.
  eexists. split; [apply deleteRecord_eq|].
  set (q := showToast (lit "success") (lit "Record deleted") (closed p)).
  assert (Hb : badge (setTimeout (SetLocation (lit "records.html")) 1200 q)
               = option_map (unveil (lit "modal-overlay")) (badge p)).
  { change (badge (setTimeout (SetLocation (lit "records.html")) 1200 q))
      with (badge q).
    unfold q. now rewrite badge_showToast, badge_closed. }
  assert (Hx : forall b, textContent (unveil (lit "modal-overlay") b)
                         = textContent b)
    by (intros b; apply unveil_keeps).
  split; [|split; [|split; [|split]]].
  - rewrite Hb. destruct (badge p); simpl; [now rewrite Hx | reflexivity].
  - unfold page_status. rewrite Hb.
    destruct (badge p); simpl; [now rewrite Hx | reflexivity].
  - simpl. apply showToast_Forall; [apply closed_modal_closed|].
    intros c Hc. exact Hc.
  - change (toasts (setTimeout (SetLocation (lit "records.html")) 1200 q))
      with (toasts q).
    unfold q. now rewrite toasts_showToast, toasts_closed.
  - simpl. fold q.
    destruct (showToast_timers (lit "success") (lit "Record deleted")
                               (closed p)) as (ts & Hts).
    exists ts. fold q in Hts. rewrite Hts. simpl. now rewrite <- app_assoc.
Qed.

Lemma applyFilters_eq (p : Page) :
  applyFilters p
  = Normal (amend (lit "filter-panel") (toggled (lit "visible"))
              (showToast (lit "success") (lit "Filters applied successfully") p)).
Proof. unfold applyFilters. apply (toggle_amend FilterPanel). Qed.

(** X10.  [applyFilters()] shows its toast and flips the filter panel: an
    open panel is closed, and a closed one is opened; the panel keeps
    every other class and everything else it had. *)
Theorem applyFilters_flips_panel (p : Page) (panel : Element) :
  getElementById (lit "filter-panel") (document p) = Some panel ->
  exists p' panel',
    applyFilters p = Normal p' /\
    getElementById (lit "filter-panel") (document p') = Some panel' /\
    hasClass (lit "visible") panel' = negb (hasClass (lit "visible") panel) /\
    (forall c, c <> lit "visible" -> hasClass c panel' = hasClass c panel) /\
    same_but_class panel panel' /\
    toasts p' = option_map
                  (fun l => l ++ [toast (lit "success")
                                        (lit "Filters applied successfully")])
                  (toasts p).
Proof.
  intros H.
  set (q := showToast (lit "success") (lit "Filters applied successfully") p).
  assert (Hq : getElementById (lit "filter-panel") (document q) = Some panel).
  { unfold q. rewrite showToast_lookup; [exact H | discriminate]. }
  assert (Hid : forall x, id (toggled (lit "visible") x) = id x)
    by (intros x; apply toggled_same_but_class).
  exists (amend (lit "filter-panel") (toggled (lit "visible")) q),
         (toggled (lit "visible") panel).
  split; [apply applyFilters_eq|].
  split; [now apply amend_same|].
  split; [now apply hasClass_toggled_same|].
  split; [intros c Hc; now apply hasClass_toggled_other|].
  split; [apply toggled_same_but_class|].
  rewrite toasts_amend; [apply toasts_showToast | exact Hid | discriminate].
Qed.

Lemma applyFilters_flips_panel_witness :
  getElementById (lit "filter-panel") (document shell_page)
  = Some (mkElement (lit "filter-panel") (lit "filter-panel")
                    (lit "filter-panel") [] [] []) /\
  exists p' panel',
    applyFilters shell_page = Normal p' /\
    getElementById (lit "filter-panel") (document p') = Some panel' /\
    hasClass (lit "visible") panel'
    = negb (hasClass (lit "visible")
                     (mkElement (lit "filter-panel") (lit "filter-panel")
                                (lit "filter-panel") [] [] [])) /\
    (forall c, c <> lit "visible" ->
       hasClass c panel'
       = hasClass c (mkElement (lit "filter-panel") (lit "filter-panel")
                               (lit "filter-panel") [] [] [])) /\
    same_but_class (mkElement (lit "filter-panel") (lit "filter-panel")
                              (lit "filter-panel") [] [] []) panel' /\
    toasts p' = option_map
                  (fun l => l ++ [toast (lit "success")
                                        (lit "Filters applied successfully")])
                  (toasts shell_page).
Proof.
  split; [reflexivity|].
  apply (applyFilters_flips_panel shell_page). reflexivity.
Defined.

Lemma clearFilters_eq (p : Page) :
  clearFilters p
  = Normal (showToast (lit "success") (lit "Filters cleared")
              (amend (lit "active-filter-tags") clear_innerHTML p)).
Proof.
  unfold clearFilters.
  now rewrite (whenPresent_amend _ _ clear_innerHTML).
Qed.

(** X11.  [clearFilters()] always returns and shows its toast, with or
    without a tag list on the page; the tag list is left empty.  It
    resets nothing else: every element keeps its id, its classes and its
    value, the filter fields and the panel included. *)
Theorem clearFilters_clears_tags_only (p : Page) :
  exists p',
    clearFilters p = Normal p' /\
    (forall tags,
       getElementById (lit "active-filter-tags") (document p) = Some tags ->
       exists tags',
         getElementById (lit "active-filter-tags") (document p') = Some tags' /\
         children tags' = [] /\ textContent tags' = []) /\
    Forall2 (fun e e' => id e' = id e /\ className e' = className e
                         /\ value e' = value e)
            (document p) (document p') /\
    toasts p' = option_map
                  (fun l => l ++ [toast (lit "success") (lit "Filters cleared")])
                  (toasts p).
Proof.
  set (aft := lit "active-filter-tags").
  exists (showToast (lit "success") (lit "Filters cleared")
                    (amend aft clear_innerHTML p)).
  split; [apply clearFilters_eq|]. split; [|split].
  - intros tags H. exists (clear_innerHTML tags).
    split; [|split; reflexivity].
    rewrite showToast_lookup by discriminate.
    now apply amend_same.
  - eapply Forall2_trans_el;
      [| apply (amend_frame aft clear_innerHTML p)
       | apply (showToast_frame (lit "success") (lit "Filters cleared"))].
    intros x y z [-> | [_ ->]] [-> | [_ ->]]; repeat split.
  - rewrite toasts_showToast, toasts_amend;
      [reflexivity | reflexivity | discriminate].
Qed.

End RecordsList.

(** ** More on the workflow handlers *)
Section HandlerComposition.

Lemma fold_after_snoc (ts : list Transition) (t : Transition) (p : Page) :
  fold_left (fun q u => after u q) (ts ++ [t]) p
  = after t (fold_left (fun q u => after u q) ts p).
Proof. now rewrite fold_left_app. Qed.

Lemma badge_fold_after (ts : list Transition) (p : Page) (b : Element) :
  badge p = Some b ->
  exists b', badge (fold_left (fun q u => after u q) ts p) = Some b'.
Proof.
  revert p b. induction ts as [|t ts IH]; intros p b Hb; simpl.
  - now exists b.
  - eapply IH. rewrite badge_after, Hb. reflexivity.
Qed.

Lemma toasts_fold_after (ts : list Transition) (p : Page) :
  toasts (fold_left (fun q u => after u q) ts p)
  = option_map
      (fun l => l ++ map (fun u => toast (lit "success") (success_message u)) ts)
      (toasts p).
Proof.
  revert p. induction ts as [|t ts IH]; intros p; simpl.
  - destruct (toasts p); simpl; [now rewrite app_nil_r | reflexivity].
  - rewrite IH, toasts_after. destruct (toasts p); simpl; [|reflexivity].
    now rewrite <- app_assoc.
Qed.

(** X12.  The last call wins: on a page with a status badge, any sequence
    of workflow handlers returns, and the status it leaves is the To
    status of the last handler called, whatever the status was before and
    whatever was called before. *)
Theorem run_last_call_wins (ts : list Transition) (t : Transition)
        (p : Page) (b : Element) :
  badge p = Some b ->
  exists p', run (ts ++ [t]) p = Normal p' /\
             page_status p' = Some (to_status t).
Proof.
  intros Hb. eexists. split; [apply run_after|].
  rewrite fold_after_snoc.
  destruct (badge_fold_after ts p b Hb) as (b' & Hb').
  now apply (page_status_after t _ b').
Qed.

Lemma run_last_call_wins_witness :
  badge archived_page
  = Some (mkElement (lit "status-badge") (lit "status-badge")
                    (lit "badge badge--archived") (lit "Archived") [] []) /\
  exists p', run ([Lock; Archive; Reject] ++ [SubmitForReview]) archived_page
             = Normal p' /\
             page_status p' = Some (to_status SubmitForReview).
Proof.
  split; [reflexivity|].
  apply (run_last_call_wins [Lock; Archive; Reject] SubmitForReview
                            archived_page
                            (mkElement (lit "status-badge") (lit "status-badge")
                                       (lit "badge badge--archived")
                                       (lit "Archived") [] [])).
  reflexivity.
Defined.

(** X13.  Toasts pile up: a sequence of workflow handlers returns and
    leaves, after the toasts already in the container, one success toast
    per call, in the order of the calls; no handler removes or replaces a
    toast. *)
Theorem run_toasts_in_call_order (ts : list Transition) (p : Page) :
  exists p',
    run ts p = Normal p' /\
    toasts p'
    = option_map
        (fun l => l ++ map (fun u => toast (lit "success") (success_message u)) ts)
        (toasts p).
Proof.
  eexists. split; [apply run_after | apply toasts_fold_after].
Qed.

Lemma badged_frame (text cls : jsstring) (p : Page) :
  Forall2 (fun x x' => x' = x \/ (id x = sb /\ x' = restyle text cls x))
          (document p) (document (badged text cls p)).
Proof.
  unfold badged.
  destruct (getElementById sb (document p)) as [b|] eqn:H; simpl.
  - eapply Forall2_impl; [|apply (storeById_frame sb b), H].
    intros x x' [-> | [-> ->]]; [now left | right].
    split; [now apply getElementById_id in H | reflexivity].
  - apply Forall2_refl_eq. now left.
Qed.

(** X14.  No workflow handler resets a form: after the call every element
    of the page has the id, the test id and the value it had, so what was
    typed in the reason and justification fields is still there; and
    every element that is neither the status badge nor the toast
    container has its text and children as before. *)
Theorem handler_keeps_inputs (t : Transition) (p : Page) :
  exists p',
    handler t p = Normal p' /\
    Forall2 (fun e e' =>
               id e' = id e /\ testid e' = testid e /\ value e' = value e /\
               (id e <> sb -> id e <> tc ->
                textContent e' = textContent e /\ children e' = children e))
            (document p) (document p').
Proof.
  exists (after t p). split; [apply handler_after|].
  unfold after.
  set (text := status_text (to_status t)).
  set (cls := status_class (to_status t)).
  eapply Forall2_trans_el;
    [| eapply Forall2_trans_el;
       [| apply (Forall2_map_right
                   (fun e e' => e' = unveil (lit "modal-overlay") e));
          reflexivity
        | apply (badged_frame text cls (closed p))]
     | apply (showToast_frame (lit "success") (success_message t))].
  - intros x y z H1 [-> | [Hz ->]]; [exact H1|].
    destruct H1 as (A & B & C & D). repeat split; try assumption;
      exfalso; congruence.
  - intros x y z -> H.
    destruct (unveil_keeps (lit "modal-overlay") x) as (Ui & Ut & Ux & Uv & Uc).
    destruct H as [-> | [Hy ->]].
    + repeat split; assumption.
    + repeat split; try assumption; rewrite Ui in Hy; contradiction.
Qed.

(** X15.  [updateStatusBadge] with a class that is no token (empty, or
    with whitespace in it) throws on a page with a badge: [SyntaxError]
    for the empty string, [InvalidCharacterError] otherwise.  By then the
    badge has lost every class but [badge], and its text is not
    updated. *)
Theorem updateStatusBadge_invalid_class (text cls : jsstring) (p : Page)
        (b : Element) :
  badge p = Some b -> valid_token cls = false ->
  exists ex p' b',
    updateStatusBadge text cls p = Throw ex p' /\
    badge p' = Some b' /\
    classList b' = [lit "badge"] /\ textContent b' = textContent b /\
    (cls = [] -> ex = SyntaxError) /\
    (cls <> [] -> ex = InvalidCharacterError).
Proof.
  intros Hb Hv. unfold badge in Hb. unfold updateStatusBadge.
  rewrite Hb. unfold classList_add. unfold valid_token in Hv.
  destruct (validate cls) as [ex|] eqn:E; [|discriminate].
  exists ex. eexists. exists (set_className (lit "badge") b).
  split; [reflexivity|]. split; [|split; [reflexivity|split; [reflexivity|]]].
  - unfold badge. simpl.
    eapply getElementById_store_same; [exact Hb|].
    simpl. now apply getElementById_id in Hb.
  - unfold validate in E. split.
    + intros ->. congruence.
    + intros Hne. destruct cls as [|c cls]; [contradiction|].
      destruct (existsb is_ascii_whitespace (c :: cls)); congruence.
Qed.

Lemma updateStatusBadge_invalid_class_witness :
  badge locked_page
  = Some (mkElement (lit "status-badge") (lit "status-badge")
                    (lit "badge badge--locked") (lit "Locked") [] []) /\
  valid_token (lit "badge--archived italic") = false /\
  exists ex p' b',
    updateStatusBadge (lit "Archived") (lit "badge--archived italic")
                      locked_page = Throw ex p' /\
    badge p' = Some b' /\
    classList b' = [lit "badge"] /\
    textContent b'
    = textContent (mkElement (lit "status-badge") (lit "status-badge")
                             (lit "badge badge--locked") (lit "Locked") [] []) /\
    (lit "badge--archived italic" = [] -> ex = SyntaxError) /\
    (lit "badge--archived italic" <> [] -> ex = InvalidCharacterError).
Proof.
  split; [reflexivity|]. split; [reflexivity|].
  apply (updateStatusBadge_invalid_class
           (lit "Archived") (lit "badge--archived italic") locked_page);
    reflexivity.
Defined.

End HandlerComposition.

(** ** Navigation highlighting *)
Section Navigation.

Lemma split_from_plain (sep : code_unit) (s cur : jsstring) :
  existsb (N.eqb sep) s = false -> split_from sep cur s = [rev cur ++ s].
Proof.
  revert cur. induction s as [|c s IH]; intros cur H; simpl in *.
  - now rewrite app_nil_r.
  - apply orb_false_iff in H as [Hc Hs]. rewrite N.eqb_sym, Hc.
    rewrite IH by assumption. simpl. now rewrite <- app_assoc.
Qed.

Lemma pop_cons (x y : jsstring) (l : list jsstring) :
  pop l = Some y -> pop (x :: l) = Some y.
Proof. destruct l; [discriminate | intros H; exact H]. Qed.

Lemma pop_split_from (sep : code_unit) (dir file cur : jsstring) :
  existsb (N.eqb sep) file = false ->
  pop (split_from sep cur (dir ++ sep :: file)) = Some file.
Proof.
  intros H. revert cur. induction dir as [|c dir IH]; intros cur; simpl.
  - rewrite N.eqb_refl. rewrite split_from_plain by assumption. reflexivity.
  - destruct (N.eqb c sep); [apply pop_cons|]; apply IH.
Qed.

(** X16.  The page name is what follows the last slash of the path name,
    whatever the directories before it; a path that ends in a slash
    stands for [dashboard.html]. *)
Theorem currentPage_last_segment (dir file : jsstring) :
  existsb (N.eqb slash) file = false ->
  currentPage (dir ++ slash :: file)
  = match file with [] => lit "dashboard.html" | _ => file end.
Proof.
  intros H. unfold currentPage, split.
  rewrite pop_split_from by assumption. now destruct file.
Qed.

Lemma currentPage_last_segment_witness :
  existsb (N.eqb slash) (lit "record-form.html") = false /\
  currentPage (lit "/qa/demo-frontend" ++ slash :: lit "record-form.html")
  = lit "record-form.html".
Proof.
  split; [reflexivity|].
  apply (currentPage_last_segment (lit "/qa/demo-frontend")
                                  (lit "record-form.html")).
  reflexivity.
Defined.




End Navigation.

(** * Handlers that show and hide elements *)

(** ** Places and displays *)
Section Places.

Lemma indexById_some (i : jsstring) (d : Document) (e : Element) :
  getElementById i d = Some e ->
  exists k, indexById i d = Some k /\ nth_error d k = Some e.
Proof.
  unfold getElementById. induction d as [|x d IH]; simpl; [discriminate|].
  destruct (jseqb (id x) i).
  - intros [= ->]. now exists O.
  - intros H. destruct (IH H) as (k & -> & Hk). now exists (S k).
Qed.

Lemma indexById_none (i : jsstring) (d : Document) :
  getElementById i d = None -> indexById i d = None.
Proof.
  unfold getElementById. induction d as [|x d IH]; simpl; [reflexivity|].
  destruct (jseqb (id x) i); [discriminate|].
  intros H. now rewrite (IH H).
Qed.

Lemma indexById_ids (i : jsstring) (d d' : Document) :
  map id d = map id d' -> indexById i d = indexById i d'.
Proof.
  revert d'. induction d as [|x d IH]; intros [|x' d'] H; simpl in *;
    try discriminate; [reflexivity|].
  injection H as Hx Hd. rewrite Hx, (IH d' Hd). reflexivity.
Qed.

Lemma map_id_storeById (i : jsstring) (e' : Element) (d : Document) :
  id e' = i -> map id (storeById i e' d) = map id d.
Proof.
  intros He. induction d as [|x d IH]; simpl; [reflexivity|].
  destruct (jseqb (id x) i) eqn:E; simpl.
  - apply jseqb_eq in E. congruence.
  - now rewrite IH.
Qed.

Lemma map_id_showToast (type msg : jsstring) (p : Page) :
  map id (document (showToast type msg p)) = map id (document p).
Proof.
  unfold showToast.
  destruct (getElementById _ (document p)) as [c|] eqn:H; [|reflexivity].
  simpl. apply map_id_storeById. simpl. now apply getElementById_id in H.
Qed.

Lemma display_set_same (k : nat) (s : jsstring) (v : View) :
  display (set_display k s v) k = Some s.
Proof. unfold display, set_display. simpl. now rewrite Nat.eqb_refl. Qed.

Lemma display_set_other (k j : nat) (s : jsstring) (v : View) :
  j <> k -> display (set_display k s v) j = display v j.
Proof.
  intros H. unfold display, set_display. simpl.
  apply Nat.eqb_neq in H. rewrite Nat.eqb_sym in H. now rewrite H.
Qed.

Lemma display_with_page (v : View) (p : Page) (k : nat) :
  display (with_page v p) k = display v k.
Proof. reflexivity. Qed.

Lemma setChildText_shows (c text : jsstring) (cs cs' : list Child) :
  setChildText c text cs = Some cs' ->
  List.length cs' = List.length cs /\
  exists ch, In ch cs' /\ child_hasClass c ch = true
             /\ child_innerHTML ch = text.
Proof.
  revert cs'. induction cs as [|x cs IH]; intros cs' H; simpl in *;
    [discriminate|].
  destruct (child_hasClass c x) eqn:E.
  - injection H as <-. split; [reflexivity|].
    eexists. split; [now left|]. split; [exact E | reflexivity].
  - destruct (setChildText c text cs) as [cs0|]; [|discriminate].
    injection H as <-. destruct (IH cs0 eq_refl) as (Hl & ch & Hin & Hc & Ht).
    split; [simpl; now rewrite Hl|].
    exists ch. split; [now right | now split].
Qed.

End Places.

(** ** The login and password-reset forms *)
Section Forms.

(** X18.  The login form checks presence only: with any non-empty user
    name and any non-empty password, whitespace included,
    [validateLoginForm] returns, shows the success toast, sets the timer
    that leads to the dashboard and hides the error banner. *)
Theorem validateLoginForm_accepts_any_credentials
        (e : Event) (v : View) (u pw : Element) :
  getElementById (lit "input-username") (document (page v)) = Some u ->
  getElementById (lit "input-password") (document (page v)) = Some pw ->
  value u <> [] -> value pw <> [] ->
  exists v',
    validateLoginForm e v = (mkEvent true, Returned v') /\
    toasts (page v')
    = option_map (fun l => l ++ [toast (lit "success")
                                       (lit "Login successful! Redirecting...")])
                 (toasts (page v)) /\
    (exists ts, timers (page v')
                = timers (page v) ++ ts
                  ++ [mkTimer 1200 (SetLocation (lit "dashboard.html"))]) /\
    (forall b, getElementById (lit "alert-login-error") (document (page v))
               = Some b ->
               display_of (lit "alert-login-error") v' = Some (lit "none")).
Proof.
  intros Hu Hp Hun Hpn. unfold validateLoginForm. rewrite Hu, Hp.
  assert (Tu : truthy (value u) = true)
    by (destruct (value u) eqn:E; [congruence | reflexivity]).
  assert (Tp : truthy (value pw) = true)
    by (destruct (value pw) eqn:E; [congruence | reflexivity]).
  rewrite Tu, Tp. simpl negb. cbn [orb].
  eexists. split; [reflexivity|]. split; [|split].
  - cbn [page with_page].
    change (toasts (setTimeout ?c ?n ?q)) with (toasts q).
    apply toasts_showToast.
  - cbn [page with_page]. simpl timers.
    destruct (showToast_timers (lit "success")
                (lit "Login successful! Redirecting...") (page v)) as (ts & ->).
    exists ts. now rewrite <- app_assoc.
  - intros b Hb. unfold display_of. cbn [page with_page]. simpl document.
    rewrite (indexById_ids _ _ (document (page v)))
      by apply map_id_showToast.
    destruct (indexById_some _ _ _ Hb) as (k & -> & _).
    rewrite display_with_page. apply display_set_same.
Qed.

Lemma validateLoginForm_accepts_any_credentials_witness :
  getElementById (lit "input-username")
                 (document (page (login_page (lit "nobody") (lit " "))))
  = Some (mkElement (lit "input-username") (lit "input-username")
                    (lit "form-input") [] (lit "nobody") []) /\
  getElementById (lit "input-password")
                 (document (page (login_page (lit "nobody") (lit " "))))
  = Some (mkElement (lit "input-password") (lit "input-password")
                    (lit "form-input") [] (lit " ") []) /\
  lit "nobody" <> [] /\ lit " " <> [] /\
  exists v',
    validateLoginForm (mkEvent false) (login_page (lit "nobody") (lit " "))
    = (mkEvent true, Returned v') /\
    toasts (page v')
    = option_map (fun l => l ++ [toast (lit "success")
                                       (lit "Login successful! Redirecting...")])
                 (toasts (page (login_page (lit "nobody") (lit " ")))) /\
    (exists ts, timers (page v')
                = timers (page (login_page (lit "nobody") (lit " "))) ++ ts
                  ++ [mkTimer 1200 (SetLocation (lit "dashboard.html"))]) /\
    (forall b,
       getElementById (lit "alert-login-error")
                      (document (page (login_page (lit "nobody") (lit " "))))
       = Some b ->
       display_of (lit "alert-login-error") v' = Some (lit "none")).
Proof.
  split; [reflexivity|]. split; [reflexivity|].
  split; [discriminate|]. split; [discriminate|].
  apply (validateLoginForm_accepts_any_credentials
           (mkEvent false) (login_page (lit "nobody") (lit " "))
           (mkElement (lit "input-username") (lit "input-username")
                      (lit "form-input") [] (lit "nobody") [])
           (mkElement (lit "input-password") (lit "input-password")
                      (lit "form-input") [] (lit " ") []));
    try reflexivity; discriminate.
Defined.

(** X19.  With an empty user name or an empty password the login is
    refused: [validateLoginForm] returns without toast and without
    timer, the error banner is displayed as [flex], and its [alert-text]
    shows the request to enter both. *)
Theorem validateLoginForm_refuses_empty_field
        (e : Event) (v : View) (u pw banner : Element) (cs : list Child) :
  getElementById (lit "input-username") (document (page v)) = Some u ->
  getElementById (lit "input-password") (document (page v)) = Some pw ->
  value u = [] \/ value pw = [] ->
  getElementById (lit "alert-login-error") (document (page v)) = Some banner ->
  setChildText (lit "alert-text") login_error_text (children banner) = Some cs ->
  exists v' banner',
    validateLoginForm e v = (mkEvent true, Returned v') /\
    display_of (lit "alert-login-error") v' = Some (lit "flex") /\
    getElementById (lit "alert-login-error") (document (page v'))
    = Some banner' /\
    (exists ch, In ch (children banner')
                /\ child_hasClass (lit "alert-text") ch = true
                /\ child_innerHTML ch = login_error_text) /\
    toasts (page v') = toasts (page v) /\
    timers (page v') = timers (page v).
Proof.
  intros Hu Hp He Hb Hc. unfold validateLoginForm. rewrite Hu, Hp.
  assert (T : negb (truthy (value u)) || negb (truthy (value pw)) = true).
  { destruct He as [-> | ->]; [reflexivity | apply orb_true_r]. }
  rewrite T, Hb, Hc.
  destruct (indexById_some _ _ _ Hb) as (k & Hk & _). rewrite Hk.
  eexists. exists (set_children cs banner).
  split; [reflexivity|]. cbn [page with_page set_display_if].
  assert (Hid : id (set_children cs banner) = lit "alert-login-error")
    by (simpl; now apply getElementById_id in Hb).
  split; [|split; [|split; [|split]]].
  - unfold display_of. cbn [page with_page]. simpl document.
    rewrite (indexById_ids _ _ (document (page v)))
      by now apply map_id_storeById.
    rewrite Hk, display_with_page. apply display_set_same.
  - simpl document. now apply (getElementById_store_same _ banner).
  - apply (setChildText_shows _ _ _ _ Hc).
  - unfold toasts. simpl document. f_equal.
    eapply getElementById_store_other; [exact Hb | exact Hid | discriminate].
  - reflexivity.
Qed.

Lemma validateLoginForm_refuses_empty_field_witness :
  getElementById (lit "input-username")
                 (document (page (login_page (lit "admin") [])))
  = Some (mkElement (lit "input-username") (lit "input-username")
                    (lit "form-input") [] (lit "admin") []) /\
  getElementById (lit "input-password")
                 (document (page (login_page (lit "admin") [])))
  = Some (mkElement (lit "input-password") (lit "input-password")
                    (lit "form-input") [] [] []) /\
  exists v' banner',
    validateLoginForm (mkEvent false) (login_page (lit "admin") [])
    = (mkEvent true, Returned v') /\
    display_of (lit "alert-login-error") v' = Some (lit "flex") /\
    getElementById (lit "alert-login-error") (document (page v'))
    = Some banner' /\
    (exists ch, In ch (children banner')
                /\ child_hasClass (lit "alert-text") ch = true
                /\ child_innerHTML ch = login_error_text) /\
    toasts (page v') = toasts (page (login_page (lit "admin") [])) /\
    timers (page v') = timers (page (login_page (lit "admin") [])).
Proof.
  split; [reflexivity|]. split; [reflexivity|].
  eapply (validateLoginForm_refuses_empty_field
            (mkEvent false) (login_page (lit "admin") []));
    [reflexivity | reflexivity | right; reflexivity
    | reflexivity | reflexivity].
Defined.

(** X20.  Neither form handler guards its inputs: on a page without the
    user-name input or without the password input [validateLoginForm]
    ends in a TypeError, and so does [submitForgotPassword] without the
    e-mail input; nothing has been changed by then, though the default
    action of the event is already prevented. *)
Theorem form_handlers_throw_without_input (e : Event) (v : View) :
  (getElementById (lit "input-username") (document (page v)) = None \/
   getElementById (lit "input-password") (document (page v)) = None ->
   validateLoginForm e v = (mkEvent true, TypeError v)) /\
  (getElementById (lit "input-reset-email") (document (page v)) = None ->
   submitForgotPassword e v = (mkEvent true, TypeError v)).
Proof.
  split.
  - intros [H | H]; unfold validateLoginForm; rewrite H; [reflexivity|].
    now destruct (getElementById (lit "input-username") (document (page v))).
  - intros H. unfold submitForgotPassword. now rewrite H.
Qed.

Lemma form_handlers_throw_without_input_witness :
  validateLoginForm (mkEvent false) (reset_page (lit "a@b.c"))
  = (mkEvent true, TypeError (reset_page (lit "a@b.c"))) /\
  submitForgotPassword (mkEvent false) (login_page (lit "admin") (lit "x"))
  = (mkEvent true, TypeError (login_page (lit "admin") (lit "x"))).
Proof.
  split.
  - apply (proj1 (form_handlers_throw_without_input
                    (mkEvent false) (reset_page (lit "a@b.c")))).
    left. reflexivity.
  - apply (proj2 (form_handlers_throw_without_input
                    (mkEvent false) (login_page (lit "admin") (lit "x")))).
    reflexivity.
Defined.

(** X21.  [submitForgotPassword] checks presence only.  With an empty
    e-mail it shows one error toast and leaves the confirmation alert as
    it is; with any non-empty text, an address or not, it displays the
    alert as [flex] and shows one success toast.  It sets no timer of its
    own either way. *)
Theorem submitForgotPassword_checks_presence_only
        (e : Event) (v : View) (em : Element) :
  getElementById (lit "input-reset-email") (document (page v)) = Some em ->
  exists v',
    submitForgotPassword e v = (mkEvent true, Returned v') /\
    (value em = [] ->
     toasts (page v')
     = option_map (fun l => l ++ [toast (lit "error")
                                        (lit "Please enter your email address.")])
                  (toasts (page v)) /\
     display_of (lit "alert-reset-sent") v'
     = display_of (lit "alert-reset-sent") v) /\
    (value em <> [] ->
     toasts (page v')
     = option_map (fun l => l ++ [toast (lit "success")
                                        (lit "Reset link sent to your email!")])
                  (toasts (page v)) /\
     forall a, getElementById (lit "alert-reset-sent") (document (page v))
               = Some a ->
               display_of (lit "alert-reset-sent") v' = Some (lit "flex")).
Proof.
  intros H. unfold submitForgotPassword. rewrite H.
  destruct (value em) as [|c s] eqn:Ev; simpl negb; cbn iota.
  - eexists. split; [reflexivity|]. split; [|congruence]. intros _.
    cbn [page with_page]. split; [apply toasts_showToast|].
    unfold display_of. cbn [page with_page].
    now rewrite (indexById_ids _ _ (document (page v)))
      by apply map_id_showToast.
  - eexists. split; [reflexivity|]. split; [congruence|]. intros _.
    cbn [page with_page]. split; [apply toasts_showToast|].
    intros a Ha. unfold display_of. cbn [page with_page].
    rewrite (indexById_ids _ _ (document (page v)))
      by apply map_id_showToast.
    destruct (indexById_some _ _ _ Ha) as (k & -> & _).
    rewrite display_with_page. apply display_set_same.
Qed.

Lemma submitForgotPassword_checks_presence_only_witness :
  getElementById (lit "input-reset-email")
                 (document (page (reset_page (lit "not an address"))))
  = Some (mkElement (lit "input-reset-email") (lit "input-reset-email")
                    (lit "form-input") [] (lit "not an address") []) /\
  exists v',
    submitForgotPassword (mkEvent false) (reset_page (lit "not an address"))
    = (mkEvent true, Returned v') /\
    (lit "not an address" = [] ->
     toasts (page v')
     = option_map (fun l => l ++ [toast (lit "error")
                                        (lit "Please enter your email address.")])
                  (toasts (page (reset_page (lit "not an address")))) /\
     display_of (lit "alert-reset-sent") v'
     = display_of (lit "alert-reset-sent") (reset_page (lit "not an address"))) /\
    (lit "not an address" <> [] ->
     toasts (page v')
     = option_map (fun l => l ++ [toast (lit "success")
                                        (lit "Reset link sent to your email!")])
                  (toasts (page (reset_page (lit "not an address")))) /\
     forall a,
       getElementById (lit "alert-reset-sent")
                      (document (page (reset_page (lit "not an address"))))
       = Some a ->
       display_of (lit "alert-reset-sent") v' = Some (lit "flex")).
Proof.
  split; [reflexivity|].
  apply (submitForgotPassword_checks_presence_only
           (mkEvent false) (reset_page (lit "not an address"))
           (mkElement (lit "input-reset-email") (lit "input-reset-email")
                      (lit "form-input") [] (lit "not an address") [])).
  reflexivity.
Defined.

End Forms.

(** ** Reports *)
Section Reports.

Lemma indexById_nth (i : jsstring) (d : Document) (k : nat) :
  indexById i d = Some k -> exists e, nth_error d k = Some e /\ id e = i.
Proof.
  revert k. induction d as [|x d IH]; intros k; simpl; [discriminate|].
  destruct (jseqb (id x) i) eqn:E.
  - intros [= <-]. exists x. split; [reflexivity | now apply jseqb_eq].
  - destruct (indexById i d) as [k0|]; [|discriminate].
    intros [= <-]. apply (IH k0 eq_refl).
Qed.

Lemma indexById_showToast (i type msg : jsstring) (p : Page) :
  indexById i (document (showToast type msg p)) = indexById i (document p).
Proof. apply indexById_ids, map_id_showToast. Qed.

(** X22.  [runReport()] on a page with the loading indicator and the
    results block displays the first as [flex], hides the second and
    shows no toast yet; it sets one callback, for 1500 ms later, and when
    that fires the indicator is hidden, the results are displayed as
    [block] and the success toast is shown. *)
Theorem runReport_then_ready (v : View) (l r : Element) :
  getElementById (lit "report-loading") (document (page v)) = Some l ->
  getElementById (lit "report-results") (document (page v)) = Some r ->
  display_of (lit "report-loading") (runReport v) = Some (lit "flex") /\
  display_of (lit "report-results") (runReport v) = Some (lit "none") /\
  toasts (page (runReport v)) = toasts (page v) /\
  exists cb,
    deferred (runReport v) = deferred v ++ [(1500%N, cb)] /\
    display_of (lit "report-loading") (fire cb (runReport v))
    = Some (lit "none") /\
    display_of (lit "report-results") (fire cb (runReport v))
    = Some (lit "block") /\
    toasts (page (fire cb (runReport v)))
    = option_map (fun t => t ++ [toast (lit "success")
                                       (lit "Report generated successfully")])
                 (toasts (page v)).
Proof.
  intros Hl Hr.
  destruct (indexById_some _ _ _ Hl) as (k1 & H1 & N1).
  destruct (indexById_some _ _ _ Hr) as (k2 & H2 & N2).
  assert (Hne : k1 <> k2).
  { intros ->. rewrite N1 in N2. injection N2 as ->.
    apply getElementById_id in Hl, Hr. rewrite Hl in Hr. discriminate. }
  assert (E : Nat.eqb k2 k1 = false) by (apply Nat.eqb_neq; congruence).
  assert (R : runReport v
              = mkView (page v)
                       ((k2, lit "none") :: (k1, lit "flex") :: displays v)
                       (deferred v
                        ++ [(1500%N, ReportReady (Some k1) (Some k2))]))
    by (unfold runReport; rewrite H1, H2; reflexivity).
  rewrite R. clear R.
  split; [|split; [|split]].
  - unfold display_of, display. cbn [page displays find fst].
    now rewrite H1, E, Nat.eqb_refl.
  - unfold display_of, display. cbn [page displays find fst].
    now rewrite H2, Nat.eqb_refl.
  - reflexivity.
  - exists (ReportReady (Some k1) (Some k2)).
    split; [reflexivity|].
    unfold fire, display_of, display.
    cbn [set_display_if set_display with_page page displays find fst].
    rewrite !indexById_showToast, H1, H2, E, !Nat.eqb_refl.
    repeat split. apply toasts_showToast.
Qed.

Lemma runReport_then_ready_witness :
  display_of (lit "report-loading") (runReport reports_page)
  = Some (lit "flex") /\
  display_of (lit "report-results") (runReport reports_page)
  = Some (lit "none") /\
  toasts (page (runReport reports_page)) = toasts (page reports_page) /\
  exists cb,
    deferred (runReport reports_page) = deferred reports_page ++ [(1500%N, cb)] /\
    display_of (lit "report-loading") (fire cb (runReport reports_page))
    = Some (lit "none") /\
    display_of (lit "report-results") (fire cb (runReport reports_page))
    = Some (lit "block") /\
    toasts (page (fire cb (runReport reports_page)))
    = option_map (fun t => t ++ [toast (lit "success")
                                       (lit "Report generated successfully")])
                 (toasts (page reports_page)).
Proof.
  apply (runReport_then_ready reports_page
           (mkElement (lit "report-loading") (lit "report-loading")
                      (lit "loading-spinner") [] [] [])
           (mkElement (lit "report-results") (lit "report-results") [] [] [] []));
    reflexivity.
Defined.

End Reports.

(** ** Searching the records *)
Section SearchFacts.

Variable toLowerCase : jsstring -> jsstring.
Variable is_row : Element -> bool.

Lemma startsWith_spec (s t : jsstring) :
  startsWith s t = true <-> exists post, s = t ++ post.
Proof.
  revert s. induction t as [|y t IH]; intros s; simpl.
  - split; [intros _; now exists s | intros _; now destruct s].
  - destruct s as [|x s].
    + split; [discriminate | intros (post & H); discriminate].
    + cbn [startsWith]. rewrite andb_true_iff, N.eqb_eq, IH. split.
      * intros (-> & post & ->). now exists post.
      * intros (post & H). injection H as -> ->. split; [reflexivity|].
        now exists post.
Qed.

(** [s.includes(t)] holds exactly when [t] is a run of [s]. *)
Lemma includes_spec (s t : jsstring) :
  includes s t = true <-> exists pre post, s = pre ++ t ++ post.
Proof.
  assert (U : forall s0, includes s0 t
                         = startsWith s0 t
                           || match s0 with
                              | [] => false
                              | _ :: s' => includes s' t
                              end)
    by (intros s0; now destruct s0).
  split.
  - induction s as [|x s IH]; rewrite U, orb_true_iff.
    + intros [H | H]; [|discriminate].
      apply startsWith_spec in H as (post & ->). now exists [], post.
    + intros [H | H].
      * apply startsWith_spec in H as (post & ->). now exists [], post.
      * destruct (IH H) as (pre & post & ->). now exists (x :: pre), post.
  - intros (pre & post & ->). induction pre as [|x pre IH].
    + assert (H : startsWith (t ++ post) t = true)
        by (apply startsWith_spec; now exists post).
      simpl app. now rewrite U, H.
    + simpl app. rewrite U, IH. apply orb_true_r.
Qed.

Lemma includes_empty (s : jsstring) : includes s [] = true.
Proof. destruct s; reflexivity. Qed.

Lemma searchRows_look (term : jsstring) (d : Document) :
  forall k ds hr j,
    option_map snd
      (find (fun kv => Nat.eqb (fst kv) j)
            (fst (searchRows toLowerCase is_row term k d ds hr)))
    = match (if Nat.leb k j then nth_error d (j - k) else None) with
      | Some row =>
          if is_row row
          then Some (if includes (toLowerCase (textContent row)) term
                     then [] else lit "none")
          else option_map snd (find (fun kv => Nat.eqb (fst kv) j) ds)
      | None => option_map snd (find (fun kv => Nat.eqb (fst kv) j) ds)
      end.
Proof.
  induction d as [|row rest IH]; intros k ds hr j.
  - simpl. destruct (Nat.leb k j); [destruct (j - k)|]; reflexivity.
  - cbn [searchRows].
    destruct (Nat.lt_trichotomy j k) as [Hlt | [-> | Hgt]].
    + assert (E1 : Nat.leb k j = false) by (apply Nat.leb_gt; lia).
      assert (E2 : Nat.leb (S k) j = false) by (apply Nat.leb_gt; lia).
      assert (E3 : Nat.eqb k j = false) by (apply Nat.eqb_neq; lia).
      rewrite E1. destruct (is_row row); rewrite IH, E2; [|reflexivity].
      cbn [find fst]. now rewrite E3.
    + assert (E2 : Nat.leb (S k) k = false) by (apply Nat.leb_gt; lia).
      rewrite Nat.leb_refl, Nat.sub_diag. cbn [nth_error].
      destruct (is_row row); rewrite IH, E2; [|reflexivity].
      cbn [find fst]. now rewrite Nat.eqb_refl.
    + assert (E1 : Nat.leb k j = true) by (apply Nat.leb_le; lia).
      assert (E2 : Nat.leb (S k) j = true) by (apply Nat.leb_le; lia).
      assert (E3 : Nat.eqb k j = false) by (apply Nat.eqb_neq; lia).
      rewrite E1. replace (j - k) with (S (j - S k)) by lia. cbn [nth_error].
      destruct (is_row row); rewrite IH, E2; [|reflexivity].
      cbn [find fst]. now rewrite E3.
Qed.

Lemma searchRows_hasResults (term : jsstring) (d : Document) :
  forall k ds hr,
    snd (searchRows toLowerCase is_row term k d ds hr)
    = hr || existsb (matches toLowerCase is_row term) d.
Proof.
  induction d as [|row rest IH]; intros k ds hr; simpl.
  - now rewrite orb_false_r.
  - unfold matches at 1. destruct (is_row row); rewrite IH; simpl;
      [|reflexivity].
    destruct (includes (toLowerCase (textContent row)) term); simpl;
      [now rewrite orb_true_r | reflexivity].
Qed.

Lemma handleSearch_display (input : jsstring) (v : View) (j : nat) :
  display (handleSearch toLowerCase is_row input v) j
  = match indexById (lit "empty-state-records") (document (page v)) with
    | Some k =>
        if Nat.eqb k j
        then Some (if existsb (matches toLowerCase is_row (toLowerCase input))
                              (document (page v))
                   then lit "none" else lit "block")
        else option_map snd
               (find (fun kv => Nat.eqb (fst kv) j)
                  (fst (searchRows toLowerCase is_row (toLowerCase input) O
                                   (document (page v)) (displays v) false)))
    | None =>
        option_map snd
          (find (fun kv => Nat.eqb (fst kv) j)
             (fst (searchRows toLowerCase is_row (toLowerCase input) O
                              (document (page v)) (displays v) false)))
    end.
Proof.
  unfold handleSearch.
  pose proof (searchRows_hasResults (toLowerCase input) (document (page v))
                                    O (displays v) false) as Hh.
  destruct (searchRows toLowerCase is_row (toLowerCase input) O
                       (document (page v)) (displays v) false) as [ds hr].
  simpl in Hh. subst hr.
  destruct (indexById (lit "empty-state-records") (document (page v)))
    as [n|]; [|reflexivity].
  unfold display, set_display_if, set_display. cbn [displays find fst].
  now destruct (Nat.eqb n j).
Qed.

(** X23.  After [handleSearch] a table row is displayed exactly when its
    lower-cased text has the lower-cased search text as a run of
    consecutive characters, and is hidden with [none] otherwise; an
    element that is neither a row nor the empty state keeps its
    display. *)
Theorem handleSearch_shows_matching_rows
        (input : jsstring) (v : View) (k : nat) (e : Element) :
  nth_error (document (page v)) k = Some e ->
  id e <> lit "empty-state-records" ->
  (is_row e = true ->
   (display (handleSearch toLowerCase is_row input v) k = Some []
    \/ display (handleSearch toLowerCase is_row input v) k = Some (lit "none")) /\
   (display (handleSearch toLowerCase is_row input v) k = Some [] <->
    exists pre post,
      toLowerCase (textContent e) = pre ++ toLowerCase input ++ post)) /\
  (is_row e = false ->
   display (handleSearch toLowerCase is_row input v) k = display v k).
Proof.
  intros Hk Hid.
  assert (D : display (handleSearch toLowerCase is_row input v) k
              = if is_row e
                then Some (if includes (toLowerCase (textContent e))
                                       (toLowerCase input)
                           then [] else lit "none")
                else display v k).
  { rewrite handleSearch_display.
    assert (L : option_map snd
                  (find (fun kv => Nat.eqb (fst kv) k)
                     (fst (searchRows toLowerCase is_row (toLowerCase input) O
                                      (document (page v)) (displays v) false)))
                = if is_row e
                  then Some (if includes (toLowerCase (textContent e))
                                         (toLowerCase input)
                             then [] else lit "none")
                  else display v k).
    { rewrite searchRows_look. simpl Nat.leb. cbv iota.
      rewrite Nat.sub_0_r, Hk. reflexivity. }
    destruct (indexById (lit "empty-state-records") (document (page v)))
      as [k0|] eqn:Hi; [|exact L].
    destruct (Nat.eqb k0 k) eqn:E; [|exact L].
    apply Nat.eqb_eq in E. subst k0.
    apply indexById_nth in Hi as (e0 & He0 & Hid0).
    rewrite Hk in He0. injection He0 as <-. contradiction. }
  rewrite D. split; intros ->; [|reflexivity].
  rewrite <- includes_spec.
  destruct (includes (toLowerCase (textContent e)) (toLowerCase input)).
  - split; [now left | tauto].
  - split; [now right|]. split; discriminate.
Qed.

Lemma matches_none_without_rows (term : jsstring) (d : Document) :
  existsb is_row d = false ->
  existsb (matches toLowerCase is_row term) d = false.
Proof.
  induction d as [|x d IH]; simpl; [reflexivity|].
  intros H. apply orb_false_iff in H as [Hx Hd].
  unfold matches at 1. now rewrite Hx, IH.
Qed.

(** X24.  After [handleSearch] the empty state is displayed as [block]
    when no table row matches, a table without rows included, and hidden
    with [none] as soon as one row matches. *)
Theorem handleSearch_empty_state (input : jsstring) (v : View) (k : nat) :
  indexById (lit "empty-state-records") (document (page v)) = Some k ->
  display (handleSearch toLowerCase is_row input v) k
  = Some (if existsb (matches toLowerCase is_row (toLowerCase input))
                     (document (page v))
          then lit "none" else lit "block") /\
  (existsb is_row (document (page v)) = false ->
   display (handleSearch toLowerCase is_row input v) k = Some (lit "block")).
Proof.
  intros H. rewrite handleSearch_display, H, Nat.eqb_refl.
  split; [reflexivity|]. intros Hn.
  replace (existsb (matches toLowerCase is_row (toLowerCase input))
                   (document (page v))) with false; [reflexivity|].
  symmetry. now apply matches_none_without_rows.
Qed.

(** X25.  A search text that lower-cases to the empty string, an emptied
    search box for one, displays every table row again. *)
Theorem handleSearch_empty_term (input : jsstring) (v : View) (k : nat)
        (row : Element) :
  toLowerCase input = [] ->
  nth_error (document (page v)) k = Some row -> is_row row = true ->
  id row <> lit "empty-state-records" ->
  display (handleSearch toLowerCase is_row input v) k = Some [].
Proof.
  intros Ht Hk Hr Hid.
  destruct (handleSearch_shows_matching_rows input v k row Hk Hid) as [H _].
  apply (H Hr). exists [], (toLowerCase (textContent row)).
  now rewrite Ht.
Qed.

End SearchFacts.

Lemma handleSearch_shows_matching_rows_witness :
  nth_error (document (page records_page)) 2
  = Some (mkElement [] (lit "records-table-row") []
                    (lit "Server Migration Plan Infrastructure Draft") [] []) /\
  (display (handleSearch ascii_lower sample_row (lit "MIGRA") records_page) 2
   = Some []
   \/ display (handleSearch ascii_lower sample_row (lit "MIGRA") records_page) 2
      = Some (lit "none")) /\
  (display (handleSearch ascii_lower sample_row (lit "MIGRA") records_page) 2
   = Some [] <->
   exists pre post,
     ascii_lower (textContent
                    (mkElement [] (lit "records-table-row") []
                               (lit "Server Migration Plan Infrastructure Draft")
                               [] []))
     = pre ++ ascii_lower (lit "MIGRA") ++ post).
Proof.
  split; [reflexivity|].
  apply (proj1 (handleSearch_shows_matching_rows
                  ascii_lower sample_row (lit "MIGRA") records_page 2
                  (mkElement [] (lit "records-table-row") []
                             (lit "Server Migration Plan Infrastructure Draft")
                             [] [])
                  eq_refl ltac:(discriminate))).
  reflexivity.
Defined.

Lemma handleSearch_empty_state_witness :
  indexById (lit "empty-state-records") (document (page records_page)) = Some 4 /\
  display (handleSearch ascii_lower sample_row (lit "zebra") records_page) 4
  = Some (if existsb (matches ascii_lower sample_row (ascii_lower (lit "zebra")))
                     (document (page records_page))
          then lit "none" else lit "block").
Proof.
  split; [reflexivity|].
  apply (proj1 (handleSearch_empty_state ascii_lower sample_row (lit "zebra")
                                         records_page 4 eq_refl)).
Defined.

Lemma handleSearch_empty_term_witness :
  ascii_lower [] = [] /\
  nth_error (document (page records_page)) 3
  = Some (mkElement [] (lit "records-table-row") []
                    (lit "Leave Policy HR Document Locked") [] []) /\
  display (handleSearch ascii_lower sample_row [] records_page) 3 = Some [].
Proof.
  split; [reflexivity|]. split; [reflexivity|].
  apply (handleSearch_empty_term
           ascii_lower sample_row [] records_page 3
           (mkElement [] (lit "records-table-row") []
                      (lit "Leave Policy HR Document Locked") [] []));
    try reflexivity.
  discriminate.
Defined.
